(** * Hiking Navigator: the geospatial and statistics core of [src/app.js]

    A shallow embedding of the track loader, the statistics routine, the
    elevation-chart distance series, the haversine distance and the live
    proximity update, with the properties of the specification stated
    over it.

    - Numbers are IEEE-754 binary64 values ([PrimFloat.float]), which is
      what a JavaScript Number is.  [Math.sqrt] is the correctly rounded
      IEEE square root and [Math.PI] the double nearest to pi.
      [Math.sin], [Math.cos] and [Math.atan2] are implementation-
      approximated by ECMA-262 and are parameters of the development;
      concrete runs use the values every engine agrees on.
    - A parsed document is a tree of JavaScript values; property reads
      on [null] and calls of non-functions throw.
    - The statistics and distance routines are modelled on the numeric
      fields of the track points; what they hand to the page is taken
      before [toFixed] and [Math.round] format it.
    - The map and chart libraries are external collaborators: a call
      into them is recorded and taken to return.
    - File handling is split at the asynchronous read: [processFile] up
      to [readAsText], then the callbacks of the reader.  The alerts
      'Please select a JSON file' and 'Error reading file' are read off
      the handler's result and the callback taken, not off the trace. *)

From Stdlib Require Import Floats ZArith List String Ascii Bool Arith Lia.
Import ListNotations.

Set Implicit Arguments.
#[local] Set Warnings "-register-all".

(* ================================================================== *)
(** ** Exceptions *)

(** A JavaScript computation either completes with a value or throws.
    The exception that occurs in the modelled code is the [TypeError]
    raised by a property read on [null] or [undefined] and by calling
    something that is not a function. *)
Inductive exn : Type :=
  | TypeError.

Inductive result (A : Type) : Type :=
  | Ok (a : A)
  | Throw (e : exn).

Arguments Ok {A} a.
Arguments Throw {A} e.

Definition bind {A B : Type} (c : result A) (k : A -> result B) : result B :=
  match c with
  | Ok a => k a
  | Throw e => Throw e
  end.

Declare Scope js_scope.
Delimit Scope js_scope with js.
Notation "x <- c ;; k" := (bind c (fun x => k))
  (at level 61, c at next level, right associativity) : js_scope.

(** [for (let i = lo; i < hi; i++) body], threading the loop-carried
    variables [s]. *)
Fixpoint forM {S : Type} (idx : list nat) (body : nat -> S -> result S)
  (s : S) : result S :=
  match idx with
  | [] => Ok s
  | i :: rest =>
      match body i s with
      | Ok s' => forM rest body s'
      | Throw e => Throw e
      end
  end.

Definition for_range {S : Type} (lo hi : nat) (body : nat -> S -> result S)
  (s : S) : result S :=
  forM (seq lo (hi - lo)) body s.

(** [xs[i]] followed by a property read: reading a property of the
    [undefined] that an out-of-range index yields is a [TypeError]. *)
Definition at_index {A : Type} (xs : list A) (i : nat) : result A :=
  match nth_error xs i with
  | Some x => Ok x
  | None => Throw TypeError
  end.

(* ================================================================== *)
(** ** Numbers *)

Module Num.

Open Scope float_scope.

(** [Math.PI] *)
Definition Math_PI : float := 0x1.921fb54442d18p+1.

(** [a > b] on Numbers is [b < a]. *)
Definition gtb (a b : float) : bool := b <? a.

Definition is_nan (x : float) : bool := negb (x =? x).

(** Finite: neither NaN nor an infinity. *)
Definition is_finite (x : float) : bool :=
  match classify x with
  | NaN | PInf | NInf => false
  | _ => true
  end.

(** Left-to-right accumulation [acc += x] over a list. *)
Definition sum_from (acc : float) (xs : list float) : float :=
  fold_left PrimFloat.add xs acc.

End Num.

Import Num.

(* ================================================================== *)
(** ** Track points and statistics ([updateStats], [haversineDistance],
       [drawElevationChart], [getDistanceToTrail]) *)

(** A track point as the statistics and distance code reads it: the
    three numeric fields of a [{lat, lon, ele}] object.  A field that
    is absent reads as [undefined], which the arithmetic and the
    comparisons of these routines treat as NaN. *)
Record TrackPoint : Type := mkPoint {
  lat : float;
  lon : float;
  ele : float
}.

(** The values [updateStats] hands to the display (before [toFixed] and
    [Math.round] format them). *)
Record Stats : Type := mkStats {
  totalDistance : float;
  elevationGain : float;
  minElev : float;
  maxElev : float
}.

(** The loop-carried variables of the second loop of [updateStats]. *)
Record ElevAcc : Type := mkElevAcc {
  acc_gain : float;
  acc_min : float;
  acc_max : float
}.

(** The loop-carried variables of the loop of [drawElevationChart]. *)
Record ChartAcc : Type := mkChartAcc {
  distances : list float;
  cumulative : float
}.

Section Geo.

Open Scope float_scope.
Open Scope js_scope.

(** The engine's [Math.sin], [Math.cos] and [Math.atan2]. *)
Variable Math_sin : float -> float.
Variable Math_cos : float -> float.
Variable Math_atan2 : float -> float -> float.

(** The two square-root arguments of the central-angle formula:
    [a] and [1 - a]. *)
Definition haversine_a (lat1 lon1 lat2 lon2 : float) : float :=
  let phi1 := lat1 * Math_PI / 180 in
  let phi2 := lat2 * Math_PI / 180 in
  let dphi := (lat2 - lat1) * Math_PI / 180 in
  let dlam := (lon2 - lon1) * Math_PI / 180 in
  Math_sin (dphi / 2) * Math_sin (dphi / 2) +
  Math_cos phi1 * Math_cos phi2 *
  Math_sin (dlam / 2) * Math_sin (dlam / 2).

Definition haversineDistance (lat1 lon1 lat2 lon2 : float) : float :=
  let R := 6371000 in
  let a := haversine_a lat1 lon1 lat2 lon2 in
  let c := 2 * Math_atan2 (sqrt a) (sqrt (1 - a)) in
  R * c.

(** [updateStats], first loop. *)
Definition distance_step (coords : list TrackPoint) (i : nat)
  (total : float) : result float :=
  p <- at_index coords (i - 1) ;;
  q <- at_index coords i ;;
  Ok (total + haversineDistance (lat p) (lon p) (lat q) (lon q)).

(** [updateStats], second loop. *)
Definition elevation_step (coords : list TrackPoint) (i : nat)
  (s : ElevAcc) : result ElevAcc :=
  q <- at_index coords i ;;
  let e := ele q in
  let mn := if e <? acc_min s then e else acc_min s in
  let mx := if gtb e (acc_max s) then e else acc_max s in
  if Nat.ltb 0 i then
    p <- at_index coords (i - 1) ;;
    let diff := ele q - ele p in
    let g := if gtb diff 0 then acc_gain s + diff else acc_gain s in
    Ok (mkElevAcc g mn mx)
  else Ok (mkElevAcc (acc_gain s) mn mx).

Definition updateStats (coords : list TrackPoint) : result Stats :=
  total <- for_range 1 (List.length coords) (distance_step coords) 0 ;;
  s <- for_range 0 (List.length coords) (elevation_step coords)
         (mkElevAcc 0 infinity neg_infinity) ;;
  Ok (mkStats total (acc_gain s) (acc_min s) (acc_max s)).

(** [drawElevationChart]: the cumulative-distance series. *)
Definition chart_step (coords : list TrackPoint) (i : nat)
  (s : ChartAcc) : result ChartAcc :=
  p <- at_index coords (i - 1) ;;
  q <- at_index coords i ;;
  let cum := cumulative s + haversineDistance (lat p) (lon p) (lat q) (lon q) in
  Ok (mkChartAcc (distances s ++ [cum / 1000]) cum).

Definition drawElevationChart (coords : list TrackPoint) : result ChartAcc :=
  for_range 1 (List.length coords) (chart_step coords) (mkChartAcc [0] 0).

(** [getDistanceToTrail], over the points of [state.trackData]. *)
Definition nearest_step (lat0 lon0 : float) (minDist : float)
  (coord : TrackPoint) : float :=
  let dist := haversineDistance lat0 lon0 (lat coord) (lon coord) in
  if dist <? minDist then dist else minDist.

Definition getDistanceToTrail (lat0 lon0 : float)
  (trackData : list TrackPoint) : float :=
  fold_left (nearest_step lat0 lon0) trackData infinity.

(** *** Reference formulations, following the specification's words *)

(** Great-circle distances of the consecutive point pairs, in order. *)
Fixpoint segment_distances (coords : list TrackPoint) : list float :=
  match coords with
  | p :: (q :: _) as rest =>
      haversineDistance (lat p) (lon p) (lat q) (lon q)
        :: segment_distances rest
  | _ => []
  end.

(** Elevation deltas of the consecutive point pairs, in order. *)
Fixpoint elevation_deltas (coords : list TrackPoint) : list float :=
  match coords with
  | p :: (q :: _) as rest => (ele q - ele p) :: elevation_deltas rest
  | _ => []
  end.

(** Sum of the strictly positive deltas. *)
Definition ascent_only_gain (coords : list TrackPoint) : float :=
  sum_from 0 (filter (fun d => gtb d 0) (elevation_deltas coords)).

(** Distance from the query point to every vertex, in order. *)
Definition vertex_distances (lat0 lon0 : float)
  (trackData : list TrackPoint) : list float :=
  map (fun p => haversineDistance lat0 lon0 (lat p) (lon p)) trackData.

End Geo.

(* ================================================================== *)
(** ** Parsed documents *)

(** A JavaScript value as [JSON.parse] builds it, together with
    [undefined], which property reads and the coordinate mapping
    produce.  An object is its list of own properties; a read finds
    the first binding of the key. *)
Inductive value : Type :=
  | VUndefined
  | VNull
  | VBool (b : bool)
  | VNum (x : float)
  | VStr (s : string)
  | VArr (items : list value)
  | VObj (fields : list (string * value)).

Module Js.

Open Scope string_scope.
Open Scope js_scope.

Fixpoint lookup (k : string) (fields : list (string * value)) : value :=
  match fields with
  | [] => VUndefined
  | (k', v) :: rest => if String.eqb k k' then v else lookup k rest
  end.

(** [v.k] for the property names the program probes ([data],
    [trackData], [coordinates], [lat], [lon], [ele]): none of them is
    a property of an array, a string, a number or a boolean, and a
    read on [null] or [undefined] throws. *)
Definition get (v : value) (k : string) : result value :=
  match v with
  | VUndefined | VNull => Throw TypeError
  | VObj fields => Ok (lookup k fields)
  | _ => Ok VUndefined
  end.

(** The property key of an array index: its decimal numeral. *)
Definition index_key (i : nat) : string :=
  String (ascii_of_nat (48 + i)) EmptyString.

(** [v[i]] for a literal index [i] below ten. *)
Definition index (v : value) (i : nat) : result value :=
  match v with
  | VUndefined | VNull => Throw TypeError
  | VArr items => Ok (nth i items VUndefined)
  | VStr s =>
      Ok match String.get i s with
         | Some c => VStr (String c EmptyString)
         | None => VUndefined
         end
  | VObj fields => Ok (lookup (index_key i) fields)
  | _ => Ok VUndefined
  end.

(** ToBoolean. *)
Definition truthy (v : value) : bool :=
  match v with
  | VUndefined | VNull => false
  | VBool b => b
  | VNum x => negb (PrimFloat.eqb x 0 || is_nan x)
  | VStr s => negb (String.eqb s EmptyString)
  | VArr _ | VObj _ => true
  end.

Definition isArray (v : value) : bool :=
  match v with
  | VArr _ => true
  | _ => false
  end.

(** [a || b] *)
Definition or_else (a b : value) : value := if truthy a then a else b.

(** [xs.map(f)] for a callback that may throw. *)
Fixpoint mapM {A B : Type} (f : A -> result B) (xs : list A)
  : result (list B) :=
  match xs with
  | [] => Ok []
  | x :: rest =>
      y <- f x ;;
      ys <- mapM f rest ;;
      Ok (y :: ys)
  end.

End Js.

(* ================================================================== *)
(** ** Track ingestion ([loadTrackData], lines 193-216) *)

(** Which branch of the format cascade assigned [coords]. *)
Inductive rule : Type :=
  | RuleNested       (* json.data && json.data.trackData *)
  | RuleBareArray    (* Array.isArray(json) *)
  | RuleCoordinates  (* json.coordinates *)
  | RuleNone.

Module Ingest.

Import Js.
Open Scope string_scope.
Open Scope js_scope.

(** [c => ({ lon: c[0], lat: c[1], ele: c[2] || 0 })] *)
Definition triple_to_point (c : value) : result value :=
  c0 <- index c 0 ;;
  c1 <- index c 1 ;;
  c2 <- index c 2 ;;
  Ok (VObj [("lon", c0); ("lat", c1); ("ele", or_else c2 (VNum 0%float))]).

(** [json.data && json.data.trackData], as a condition. *)
Definition has_nested (json : value) : result bool :=
  data <- get json "data" ;;
  if truthy data then
    trackData <- get data "trackData" ;;
    Ok (truthy trackData)
  else Ok false.

(** The body of the first branch: [coords] stays [[]] unless
    [trackData] is a non-empty array. *)
Definition from_nested (json : value) : result (list value) :=
  data <- get json "data" ;;
  trackData <- get data "trackData" ;;
  match trackData with
  | VArr (first :: rest) =>
      match first with
      | VArr inner => Ok inner
      | _ => Ok (first :: rest)
      end
  | _ => Ok []
  end.

(** The body of the third branch.  [map] is a function only on an
    array: on any other truthy value the call throws. *)
Definition from_coordinates (coordinates : value) : result (list value) :=
  match coordinates with
  | VArr cs => mapM triple_to_point cs
  | _ => Throw TypeError
  end.

(** The format cascade: the branch taken and the value of [coords]
    when line 212 is reached. *)
Definition resolve (json : value) : result (rule * list value) :=
  nested <- has_nested json ;;
  if nested then
    coords <- from_nested json ;;
    Ok (RuleNested, coords)
  else
    match json with
    | VArr items => Ok (RuleBareArray, items)
    | _ =>
        coordinates <- get json "coordinates" ;;
        if truthy coordinates then
          coords <- from_coordinates coordinates ;;
          Ok (RuleCoordinates, coords)
        else Ok (RuleNone, [])
    end.

End Ingest.

(* ================================================================== *)
(** ** The session: [state], the page elements and the event handlers *)

(** Proximity bands of [updateDistanceIndicator]. *)
Inductive band : Type :=
  | ON_TRAIL
  | NEAR_TRAIL
  | OFF_TRAIL.

(** A layer handle held in [state]: what it draws and whether it is
    currently on the map. *)
Record layer (G : Type) : Type := mkLayer {
  geometry : G;
  on_map : bool
}.

(** [[lat, lng]] as handed to the map library. *)
Definition latLng : Type := (value * value)%type.

(** [state.userPosition] *)
Record position : Type := mkFix {
  fix_lat : float;
  fix_lon : float;
  fix_accuracy : float
}.

(** Failure cases of the geolocation callback. *)
Inductive gps_error : Type :=
  | PERMISSION_DENIED
  | POSITION_UNAVAILABLE
  | TIMEOUT
  | OTHER_ERROR.

(** What [updateGPSStatus] shows. *)
Inductive gps_status : Type :=
  | GpsError (message : string)
  | GpsSearching
  | GpsActive (accuracy : float).   (* the text rounds it to metres *)

(** Messages shown with [alert]. *)
Inductive alert : Type :=
  | CouldNotFindTrackData     (* 'Could not find track data in file' *)
  | ErrorParsingJSON.         (* 'Error parsing JSON file: ' + message *)

(** Calls into the page and the rendering libraries, in program order. *)
Inductive effect : Type :=
  | Alert (msg : alert)
  | ShowLoading (show : bool)
  | SetTrailName (name : string)
  | DrawTrack (coords : list value)
  | UpdateStats (coords : list value)
  | DrawElevationChart (coords : list value)
  | HideDropZone
  | UpdateGPSStatus (status : gps_status)
  | UpdateDistanceIndicator (distance : float).

(** The global [state] object, the distance indicator element and the
    trace of calls made so far. *)
Record State : Type := mkState {
  trackLayer : option (layer (list latLng));
  userMarker : option latLng;
  startMarker : option (layer latLng);
  endMarker : option (layer latLng);
  elevationChart : option (list value);
  trackData : list value;
  watchId : option nat;
  userPosition : option position;
  (* the page *)
  distanceIndicator : option (float * band);
  (* the host *)
  geolocation : bool;
  next_watch : nat;
  trace : list effect
}.

(** How a handler ended. *)
Inductive outcome : Type :=
  | Completed
  | NoTrackDataFound
  | Raised (e : exn).

Definition initial_state (geo : bool) : State :=
  {| trackLayer := None; userMarker := None; startMarker := None;
     endMarker := None; elevationChart := None; trackData := [];
     watchId := None; userPosition := None; distanceIndicator := None;
     geolocation := geo; next_watch := 1; trace := [] |}.

Module Session.

Import Js Ingest.
Open Scope string_scope.

Definition emit (e : effect) (st : State) : State :=
  {| trackLayer := trackLayer st; userMarker := userMarker st;
     startMarker := startMarker st; endMarker := endMarker st;
     elevationChart := elevationChart st; trackData := trackData st;
     watchId := watchId st; userPosition := userPosition st;
     distanceIndicator := distanceIndicator st;
     geolocation := geolocation st; next_watch := next_watch st;
     trace := trace st ++ [e] |}.

Definition set_trackData (coords : list value) (st : State) : State :=
  {| trackLayer := trackLayer st; userMarker := userMarker st;
     startMarker := startMarker st; endMarker := endMarker st;
     elevationChart := elevationChart st; trackData := coords;
     watchId := watchId st; userPosition := userPosition st;
     distanceIndicator := distanceIndicator st;
     geolocation := geolocation st; next_watch := next_watch st;
     trace := trace st |}.

Definition set_layers (t : option (layer (list latLng)))
  (s e : option (layer latLng)) (st : State) : State :=
  {| trackLayer := t; userMarker := userMarker st;
     startMarker := s; endMarker := e;
     elevationChart := elevationChart st; trackData := trackData st;
     watchId := watchId st; userPosition := userPosition st;
     distanceIndicator := distanceIndicator st;
     geolocation := geolocation st; next_watch := next_watch st;
     trace := trace st |}.

Definition set_elevationChart (c : option (list value)) (st : State) : State :=
  {| trackLayer := trackLayer st; userMarker := userMarker st;
     startMarker := startMarker st; endMarker := endMarker st;
     elevationChart := c; trackData := trackData st;
     watchId := watchId st; userPosition := userPosition st;
     distanceIndicator := distanceIndicator st;
     geolocation := geolocation st; next_watch := next_watch st;
     trace := trace st |}.

Definition set_watch (st : State) : State :=
  {| trackLayer := trackLayer st; userMarker := userMarker st;
     startMarker := startMarker st; endMarker := endMarker st;
     elevationChart := elevationChart st; trackData := trackData st;
     watchId := Some (next_watch st); userPosition := userPosition st;
     distanceIndicator := distanceIndicator st;
     geolocation := geolocation st; next_watch := S (next_watch st);
     trace := trace st |}.

Definition set_user (p : position) (st : State) : State :=
  {| trackLayer := trackLayer st;
     userMarker := Some (VNum (fix_lat p), VNum (fix_lon p));
     startMarker := startMarker st; endMarker := endMarker st;
     elevationChart := elevationChart st; trackData := trackData st;
     watchId := watchId st; userPosition := Some p;
     distanceIndicator := distanceIndicator st;
     geolocation := geolocation st; next_watch := next_watch st;
     trace := trace st |}.

Definition set_indicator (i : option (float * band)) (st : State) : State :=
  {| trackLayer := trackLayer st; userMarker := userMarker st;
     startMarker := startMarker st; endMarker := endMarker st;
     elevationChart := elevationChart st; trackData := trackData st;
     watchId := watchId st; userPosition := userPosition st;
     distanceIndicator := i;
     geolocation := geolocation st; next_watch := next_watch st;
     trace := trace st |}.

(** [state.map.removeLayer(l)] when [l] is set: the handle stays in
    [state], the layer leaves the map. *)
Definition removeLayer {G : Type} (l : option (layer G)) : option (layer G) :=
  match l with
  | Some h => Some (mkLayer (geometry h) false)
  | None => None
  end.

(** [filename.replace('.json', '')]: the first occurrence only. *)
Fixpoint replace_first (pat rep s : string) : string :=
  if String.prefix pat s
  then rep ++ substring (String.length pat) (String.length s - String.length pat) s
  else match s with
       | EmptyString => EmptyString
       | String c s' => String c (replace_first pat rep s')
       end.

(** [.replace(/_/g, ' ')] *)
Fixpoint underscores_to_spaces (s : string) : string :=
  match s with
  | EmptyString => EmptyString
  | String c s' =>
      String (if Ascii.eqb c "_"%char then " "%char else c)
             (underscores_to_spaces s')
  end.

Definition trail_name (filename : string) : string :=
  underscores_to_spaces (replace_first ".json" EmptyString filename).

End Session.

Section Handlers.

Import Js Ingest Session.
Open Scope string_scope.
Open Scope js_scope.

Variable Math_sin : float -> float.
Variable Math_cos : float -> float.
Variable Math_atan2 : float -> float -> float.

(** ToNumber of a string, an array or an object (ECMA-262 7.1.4);
    the other cases are written out in [ToNumber]. *)
Variable ToNumber_other : value -> float.

Definition ToNumber (v : value) : float :=
  match v with
  | VNum x => x
  | VUndefined => nan
  | VNull => 0%float
  | VBool true => 1%float
  | VBool false => 0%float
  | _ => ToNumber_other v
  end.

(** The numeric view of one element of [state.trackData]: the
    property reads, then the coercion arithmetic applies to them. *)
Definition numeric_point (c : value) : result TrackPoint :=
  la <- get c "lat" ;;
  lo <- get c "lon" ;;
  el <- get c "ele" ;;
  Ok (mkPoint (ToNumber la) (ToNumber lo) (ToNumber el)).

(** [c => [c.lat, c.lon]] *)
Definition to_latLng (c : value) : result latLng :=
  la <- get c "lat" ;;
  lo <- get c "lon" ;;
  Ok (la, lo).

(** [drawTrack(coords)].  The map library is an external
    collaborator: its calls are taken to return.  (Its own validation
    of the coordinates it is handed is outside this model.) *)
Definition drawTrack (coords : list value) (st : State)
  : State * result unit :=
  match mapM to_latLng coords with
  | Throw e => (st, Throw e)
  | Ok latLngs =>
      let st1 :=
        set_layers (Some (mkLayer latLngs true))
                   (startMarker st) (endMarker st) st in
      match latLngs with
      | [] => (st1, Throw TypeError)        (* coords[0].lat *)
      | first :: _ =>
          (set_layers (trackLayer st1)
                      (Some (mkLayer first true))
                      (Some (mkLayer (last latLngs first) true)) st1,
           Ok tt)
      end
  end.

(** [startGPSTracking()] *)
Definition startGPSTracking (st : State) : State :=
  if geolocation st
  then emit (UpdateGPSStatus GpsSearching) (set_watch st)
  else emit (UpdateGPSStatus (GpsError "GPS not supported")) st.

(** [loadTrackData(json, filename)] *)
Definition loadTrackData (json : value) (filename : string) (st : State)
  : State * outcome :=
  match resolve json with
  | Throw e => (st, Raised e)
  | Ok (_, []) =>
      (emit (ShowLoading false) (emit (Alert CouldNotFindTrackData) st),
       NoTrackDataFound)
  | Ok (_, coords) =>
      let st := set_trackData coords st in
      let st := emit (SetTrailName (trail_name filename)) st in
      let st := set_layers (removeLayer (trackLayer st))
                           (removeLayer (startMarker st))
                           (removeLayer (endMarker st)) st in
      let st := emit (DrawTrack coords) st in
      match drawTrack coords st with
      | (st, Throw e) => (st, Raised e)
      | (st, Ok _) =>
          let st := emit (UpdateStats coords) st in
          let st := emit (DrawElevationChart coords) st in
          let st := set_elevationChart (Some coords) st in
          let st := emit HideDropZone st in
          let st := emit (ShowLoading false) st in
          (startGPSTracking st, Completed)
      end
  end.

(** [reader.onload] of [processFile]: [JSON.parse] either threw
    ([None]) or produced a document; every exception of the [try]
    block is reported the same way. *)
Definition reader_onload (parsed : option value) (filename : string)
  (st : State) : State * outcome :=
  let report st :=
    emit (ShowLoading false) (emit (Alert ErrorParsingJSON) st) in
  match parsed with
  | None => (report st, Completed)
  | Some json =>
      match loadTrackData json filename st with
      | (st', Raised _) => (report st', Completed)
      | r => r
      end
  end.

(** [getDistanceToTrail(lat, lon)] over [state.trackData]. *)
Definition distanceToTrail (lat0 lon0 : float) (st : State) : result float :=
  pts <- mapM numeric_point (trackData st) ;;
  Ok (getDistanceToTrail Math_sin Math_cos Math_atan2 lat0 lon0 pts).

Definition band_of (distance : float) : band :=
  if PrimFloat.ltb distance 50 then ON_TRAIL
  else if PrimFloat.ltb distance 200 then NEAR_TRAIL
  else OFF_TRAIL.

(** [updateDistanceIndicator(distance)] *)
Definition updateDistanceIndicator (distance : float) (st : State) : State :=
  emit (UpdateDistanceIndicator distance)
       (set_indicator (Some (distance, band_of distance)) st).

(** [onPositionUpdate(position)] *)
Definition onPositionUpdate (p : position) (st : State) : State * outcome :=
  let st := set_user p st in
  let st := emit (UpdateGPSStatus (GpsActive (fix_accuracy p))) st in
  match trackData st with
  | [] => (st, Completed)
  | _ :: _ =>
      match distanceToTrail (fix_lat p) (fix_lon p) st with
      | Throw e => (st, Raised e)
      | Ok d => (updateDistanceIndicator d st, Completed)
      end
  end.

(** [onPositionError(error)] *)
Definition onPositionError (e : gps_error) (st : State) : State :=
  let message :=
    match e with
    | PERMISSION_DENIED => "Permission denied"
    | POSITION_UNAVAILABLE => "Position unavailable"
    | TIMEOUT => "Timeout"
    | OTHER_ERROR => "GPS Error"
    end in
  emit (UpdateGPSStatus (GpsError message)) st.

End Handlers.

(* ================================================================== *)
(** ** File handling ([handleFileSelect], [handleDrop], [processFile]) *)

Module Files.

Import Js Ingest Session.
Open Scope string_scope.

(** [name.endsWith(suffix)] *)
Fixpoint ends_with (suffix s : string) : bool :=
  String.eqb suffix s
  || match s with
     | EmptyString => false
     | String _ s' => ends_with suffix s'
     end.

(** How the synchronous part of [processFile] ends: with the alert
    'Please select a JSON file', or with the read started. *)
Inductive file_check : Type :=
  | PleaseSelectJSON
  | Reading.

(** [processFile(file)] up to [reader.readAsText(file)]. *)
Definition processFile (name : string) (st : State) : State * file_check :=
  if negb (ends_with ".json" name) then (st, PleaseSelectJSON)
  else (emit (ShowLoading true) st, Reading).

(** [handleFileSelect(e)] and [handleDrop(e)]: the first file of the
    list, if there is one. *)
Definition handleFiles (names : list string) (st : State)
  : State * option file_check :=
  match names with
  | [] => (st, None)
  | name :: _ =>
      let (st', c) := processFile name st in (st', Some c)
  end.

(** [reader.onerror]: the alert 'Error reading file', then
    [showLoading(false)]. *)
Definition reader_onerror (st : State) : State :=
  emit (ShowLoading false) st.

End Files.

(* ================================================================== *)
(** ** Callbacks *)

(** The callbacks the page registers that touch [state]: the file
    input and the drop zone, the two callbacks of the file reader, and
    the two callbacks of the position watch. *)
Inductive event : Type :=
  | FilesChosen (names : list string)
  | FileLoaded (parsed : option value) (name : string)
  | FileUnreadable
  | PositionFound (p : position)
  | PositionFailed (e : gps_error).

Section Callbacks.

Import Js Ingest Session Files.

Variable Math_sin : float -> float.
Variable Math_cos : float -> float.
Variable Math_atan2 : float -> float -> float.
Variable ToNumber_other : value -> float.

(** One callback.  The position callbacks are those handed to
    [watchPosition]: the host calls them only once a watch is
    registered.  The reader callbacks are taken at any time, which
    admits more sessions than the page has. *)
Definition step (ev : event) (st : State) : State :=
  match ev with
  | FilesChosen names => fst (handleFiles names st)
  | FileLoaded parsed name => fst (reader_onload parsed name st)
  | FileUnreadable => reader_onerror st
  | PositionFound p =>
      match watchId st with
      | Some _ =>
          fst (onPositionUpdate Math_sin Math_cos Math_atan2 ToNumber_other
                 p st)
      | None => st
      end
  | PositionFailed e =>
      match watchId st with
      | Some _ => onPositionError e st
      | None => st
      end
  end.

Definition run (events : list event) (st : State) : State :=
  fold_left (fun s ev => step ev s) events st.

End Callbacks.

(* ================================================================== *)
(** ** Values of the engine's [Math] functions

    The arguments at which ECMA-262 fixes the result of [Math.sin],
    [Math.cos] and [Math.atan2] ([sin(+-0) = +-0], [cos(+-0) = 1],
    [atan2(+-0, x > 0) = +-0], NaN for a NaN or an infinite angle),
    and the two at which every engine returns the correctly rounded
    value: [sin(+-PI/2) = +-1] and [atan2(y > 0, +-0) = PI/2].  The
    concrete runs below evaluate the functions at these arguments
    only; elsewhere the table holds no information and yields NaN. *)

Module Engine.

Open Scope float_scope.

Definition sin (x : float) : float :=
  if x =? 0 then x
  else if x =? Math_PI / 2 then 1
  else if x =? - (Math_PI / 2) then -1
  else nan.

Definition cos (x : float) : float :=
  if x =? 0 then 1 else nan.

Definition atan2 (y x : float) : float :=
  if (y =? 0) && (0 <? x) then y
  else if (0 <? y) && (x =? 0) then Math_PI / 2
  else nan.

(** ToNumber of a string, an array or an object is not needed on the
    documents of the concrete runs, whose fields are numbers. *)
Definition ToNumber_other (v : value) : float := nan.

(** A track that walks [n] times between the points (0, 0) and
    (0, 180) of the equator. *)
Fixpoint antipodal_walk (n : nat) (east : bool) : list TrackPoint :=
  match n with
  | O => [mkPoint 0 (if east then 180 else 0) 0]
  | S n' => mkPoint 0 (if east then 180 else 0) 0
              :: antipodal_walk n' (negb east)
  end.

End Engine.

(* ================================================================== *)
(** * Properties *)

(** ** Loops over an index range *)

Lemma at_index_middle (A : Type) (pre : list A) (x : A) (tl : list A) :
  at_index (pre ++ x :: tl) (List.length pre) = Ok x.
Proof.
  unfold at_index.
  rewrite nth_error_app2 by lia.
  now rewrite Nat.sub_diag.
Qed.

Lemma at_index_next (A : Type) (pre : list A) (x y : A) (tl : list A) :
  at_index (pre ++ x :: y :: tl) (S (List.length pre)) = Ok y.
Proof.
  replace (pre ++ x :: y :: tl) with ((pre ++ [x]) ++ y :: tl)
    by (now rewrite <- app_assoc).
  replace (S (List.length pre)) with (List.length (pre ++ [x]))
    by (rewrite length_app; simpl; lia).
  apply at_index_middle.
Qed.

Section GeoFacts.

Open Scope float_scope.

Variable Math_sin : float -> float.
Variable Math_cos : float -> float.
Variable Math_atan2 : float -> float -> float.

Local Abbreviation haversine := (haversineDistance Math_sin Math_cos Math_atan2).
Local Abbreviation segments := (segment_distances Math_sin Math_cos Math_atan2).
Local Abbreviation stats := (updateStats Math_sin Math_cos Math_atan2).
Local Abbreviation chart := (drawElevationChart Math_sin Math_cos Math_atan2).

(** The first loop of [updateStats] accumulates the segment
    distances from left to right. *)
Lemma distance_loop (tl pre : list TrackPoint) (p : TrackPoint) (acc : float) :
  forM (seq (S (List.length pre)) (List.length tl))
       (distance_step Math_sin Math_cos Math_atan2 (pre ++ p :: tl)) acc
  = Ok (sum_from acc (segments (p :: tl))).
Proof.
  revert pre p acc.
  induction tl as [|q tl IH]; intros pre p acc; [reflexivity|].
  cbn [List.length seq forM].
  unfold distance_step at 1.
  replace (S (List.length pre) - 1)%nat with (List.length pre) by lia.
  rewrite at_index_middle, at_index_next.
  cbn [bind].
  replace (pre ++ p :: q :: tl) with ((pre ++ [p]) ++ q :: tl)
    by (now rewrite <- app_assoc).
  replace (S (S (List.length pre))) with (S (List.length (pre ++ [p])))
    by (rewrite length_app; simpl; lia).
  rewrite IH.
  reflexivity.
Qed.

Lemma total_distance_loop (coords : list TrackPoint) :
  for_range 1 (List.length coords)
    (distance_step Math_sin Math_cos Math_atan2 coords) 0
  = Ok (sum_from 0 (segments coords)).
Proof.
  destruct coords as [|p tl]; [reflexivity|].
  unfold for_range.
  replace (List.length (p :: tl) - 1)%nat with (List.length tl)
    by (simpl; lia).
  apply (distance_loop tl [] p 0).
Qed.

(** One iteration of the second loop of [updateStats] for [i > 0], on
    the previous point [p] and the current point [q]. *)
Definition elevation_pair (p q : TrackPoint) (s : ElevAcc) : ElevAcc :=
  let e := ele q in
  let diff := ele q - ele p in
  mkElevAcc (if gtb diff 0 then acc_gain s + diff else acc_gain s)
            (if e <? acc_min s then e else acc_min s)
            (if gtb e (acc_max s) then e else acc_max s).

Fixpoint elevation_pairs (p : TrackPoint) (tl : list TrackPoint)
  (s : ElevAcc) : ElevAcc :=
  match tl with
  | [] => s
  | q :: tl' => elevation_pairs q tl' (elevation_pair p q s)
  end.

Lemma elevation_loop (tl pre : list TrackPoint) (p : TrackPoint) (s : ElevAcc) :
  forM (seq (S (List.length pre)) (List.length tl))
       (elevation_step (pre ++ p :: tl)) s
  = Ok (elevation_pairs p tl s).
Proof.
  revert pre p s.
  induction tl as [|q tl IH]; intros pre p s; [reflexivity|].
  cbn [List.length seq forM].
  unfold elevation_step at 1.
  rewrite at_index_next.
  cbn [bind Nat.ltb Nat.leb].
  replace (S (List.length pre) - 1)%nat with (List.length pre) by lia.
  rewrite at_index_middle.
  cbn [bind].
  replace (pre ++ p :: q :: tl) with ((pre ++ [p]) ++ q :: tl)
    by (now rewrite <- app_assoc).
  replace (S (S (List.length pre))) with (S (List.length (pre ++ [p])))
    by (rewrite length_app; simpl; lia).
  rewrite IH.
  reflexivity.
Qed.

(** The gain accumulated over the pairs is the left-to-right sum of
    the strictly positive deltas. *)
Lemma elevation_pairs_gain (tl : list TrackPoint) (p : TrackPoint) (s : ElevAcc) :
  acc_gain (elevation_pairs p tl s)
  = sum_from (acc_gain s)
      (filter (fun d => gtb d 0) (elevation_deltas (p :: tl))).
Proof.
  revert p s.
  induction tl as [|q tl IH]; intros p s; [reflexivity|].
  cbn [elevation_pairs].
  rewrite IH.
  cbn [elevation_deltas filter].
  unfold elevation_pair; cbn [acc_gain].
  destruct (gtb (ele q - ele p) 0); reflexivity.
Qed.

(** The state of the second loop after its first iteration ([i = 0]). *)
Definition elevation_first (p : TrackPoint) : ElevAcc :=
  mkElevAcc 0
    (if ele p <? infinity then ele p else infinity)
    (if gtb (ele p) neg_infinity then ele p else neg_infinity).

Lemma elevation_range (p : TrackPoint) (tl : list TrackPoint) :
  for_range 0 (List.length (p :: tl)) (elevation_step (p :: tl))
    (mkElevAcc 0 infinity neg_infinity)
  = Ok (elevation_pairs p tl (elevation_first p)).
Proof.
  unfold for_range.
  rewrite Nat.sub_0_r.
  cbn [List.length seq forM].
  unfold elevation_step at 1.
  cbn [at_index nth_error bind Nat.ltb Nat.leb acc_gain acc_min acc_max].
  apply (elevation_loop tl [] p).
Qed.

(** The running totals [acc + x1], [acc + x1 + x2], ... *)
Fixpoint running_totals (acc : float) (xs : list float) : list float :=
  match xs with
  | [] => []
  | x :: rest => (acc + x) :: running_totals (acc + x) rest
  end.

Definition to_km (meters : float) : float := meters / 1000.

Lemma chart_loop (tl pre : list TrackPoint) (p : TrackPoint) (s : ChartAcc) :
  forM (seq (S (List.length pre)) (List.length tl))
       (chart_step Math_sin Math_cos Math_atan2 (pre ++ p :: tl)) s
  = Ok (mkChartAcc
          (distances s ++
             map to_km (running_totals (cumulative s) (segments (p :: tl))))
          (sum_from (cumulative s) (segments (p :: tl)))).
Proof.
  revert pre p s.
  induction tl as [|q tl IH]; intros pre p s.
  - cbn. rewrite app_nil_r. now destruct s.
  - cbn [List.length seq forM].
    unfold chart_step at 1.
    replace (S (List.length pre) - 1)%nat with (List.length pre) by lia.
    rewrite at_index_middle, at_index_next.
    cbn [bind].
    replace (pre ++ p :: q :: tl) with ((pre ++ [p]) ++ q :: tl)
      by (now rewrite <- app_assoc).
    replace (S (S (List.length pre))) with (S (List.length (pre ++ [p])))
      by (rewrite length_app; simpl; lia).
    rewrite IH.
    cbn [distances cumulative].
    rewrite <- app_assoc.
    reflexivity.
Qed.

Lemma chart_range (p : TrackPoint) (tl : list TrackPoint) :
  chart (p :: tl)
  = Ok (mkChartAcc
          (0 :: map to_km (running_totals 0 (segments (p :: tl))))
          (sum_from 0 (segments (p :: tl)))).
Proof.
  unfold drawElevationChart, for_range.
  replace (List.length (p :: tl) - 1)%nat with (List.length tl)
    by (simpl; lia).
  apply (chart_loop tl [] p (mkChartAcc [0] 0)).
Qed.

Lemma segments_cons (p q : TrackPoint) (tl : list TrackPoint) :
  segments (p :: q :: tl)
  = haversine (lat p) (lon p) (lat q) (lon q) :: segments (q :: tl).
Proof. reflexivity. Qed.

Lemma segments_length (tl : list TrackPoint) (p : TrackPoint) :
  List.length (segments (p :: tl)) = List.length tl.
Proof.
  revert p; induction tl as [|q tl IH]; intros p; [reflexivity|].
  rewrite segments_cons. cbn [List.length]. now rewrite IH.
Qed.

Lemma running_totals_length (xs : list float) (acc : float) :
  List.length (running_totals acc xs) = List.length xs.
Proof.
  revert acc; induction xs as [|x xs IH]; intros acc; [reflexivity|].
  cbn. now rewrite IH.
Qed.

Lemma running_totals_nth (xs : list float) (acc : float) (i : nat) :
  (i < List.length xs)%nat ->
  nth_error (running_totals acc xs) i = Some (sum_from acc (firstn (S i) xs)).
Proof.
  revert acc i; induction xs as [|x xs IH]; intros acc i Hi; [simpl in Hi; lia|].
  destruct i as [|i]; [reflexivity|].
  cbn [running_totals nth_error].
  rewrite IH by (simpl in Hi; lia).
  reflexivity.
Qed.

(** [updateStats] never throws; its result in closed form. *)
Lemma updateStats_nil :
  stats [] = Ok (mkStats 0 0 infinity neg_infinity).
Proof. reflexivity. Qed.

Lemma updateStats_cons (p : TrackPoint) (tl : list TrackPoint) :
  stats (p :: tl)
  = let e := elevation_pairs p tl (elevation_first p) in
    Ok (mkStats (sum_from 0 (segments (p :: tl)))
                (acc_gain e) (acc_min e) (acc_max e)).
Proof.
  unfold updateStats.
  rewrite total_distance_loop.
  cbn [bind].
  rewrite elevation_range.
  reflexivity.
Qed.

(** C4: for every track the elevation gain computed by [updateStats] is
    the sum, over the consecutive point pairs in order, of the strictly
    positive elevation deltas (a descent adds nothing); the track with
    elevations 100, 90, 120 yields a gain of 30, whatever its
    coordinates. *)
Theorem elevation_gain_is_ascent_only :
  (forall coords : list TrackPoint,
     exists s : Stats,
       stats coords = Ok s /\ elevationGain s = ascent_only_gain coords)
  /\
  (forall la1 lo1 la2 lo2 la3 lo3 : float,
     exists s : Stats,
       stats [mkPoint la1 lo1 100; mkPoint la2 lo2 90; mkPoint la3 lo3 120]
       = Ok s /\ elevationGain s = 30).
Proof.
  assert (G : forall coords : list TrackPoint,
             exists s : Stats,
               stats coords = Ok s
               /\ elevationGain s = ascent_only_gain coords).
  { intros [|p tl].
    - eexists; split; [apply updateStats_nil | reflexivity].
    - rewrite updateStats_cons.
      eexists; split; [reflexivity|].
      cbn [elevationGain].
      now rewrite elevation_pairs_gain. }
  split; [exact G|].
  intros la1 lo1 la2 lo2 la3 lo3.
  destruct (G [mkPoint la1 lo1 100; mkPoint la2 lo2 90; mkPoint la3 lo3 120])
    as [s [Hs Hg]].
  exists s; split; [exact Hs|].
  rewrite Hg. reflexivity.
Qed.

(** C5: for every non-empty track of n points the cumulative distance
    series of [drawElevationChart] has exactly n entries, its first
    entry is 0, and its i-th entry is the left-to-right sum of the
    great-circle distances of the first i consecutive point pairs,
    divided by 1000. *)
Theorem cumulative_distance_series (p : TrackPoint) (tl : list TrackPoint) :
  exists c : ChartAcc,
    chart (p :: tl) = Ok c
    /\ List.length (distances c) = List.length (p :: tl)
    /\ nth_error (distances c) 0 = Some 0
    /\ forall i : nat,
         (i < List.length (p :: tl))%nat ->
         nth_error (distances c) i
         = Some (to_km (sum_from 0 (firstn i (segments (p :: tl))))).
Proof.
  rewrite chart_range.
  eexists; split; [reflexivity|].
  cbn [distances].
  repeat split.
  - cbn [List.length].
    now rewrite length_map, running_totals_length, segments_length.
  - intros [|i] Hi; [reflexivity|].
    cbn [nth_error].
    rewrite nth_error_map, running_totals_nth
      by (rewrite segments_length; simpl in Hi; lia).
    reflexivity.
Qed.

End GeoFacts.

(* ================================================================== *)
(** ** The order of binary64 values *)

Module FloatOrder.

Open Scope float_scope.

Ltac split_compare :=
  repeat match goal with
  | H : context [Z.compare ?a ?b] |- _ => destruct (Z.compare_spec a b)
  | |- context [Z.compare ?a ?b] => destruct (Z.compare_spec a b)
  | H : context [Pos.compare_cont Eq ?a ?b] |- _ =>
      change (Pos.compare_cont Eq a b) with (Pos.compare a b) in *;
      destruct (Pos.compare_spec a b)
  | |- context [Pos.compare_cont Eq ?a ?b] =>
      change (Pos.compare_cont Eq a b) with (Pos.compare a b) in *;
      destruct (Pos.compare_spec a b)
  end.

Lemma SFleb_trans (x y z : spec_float) :
  SFleb x y = true -> SFleb y z = true -> SFleb x z = true.
Proof.
  unfold SFleb, SFcompare.
  destruct x as [sx|sx| |sx mx ex], y as [sy|sy| |sy my ey],
           z as [sz|sz| |sz mz ez];
    try destruct sx; try destruct sy; try destruct sz; cbn;
    try discriminate; try reflexivity; intros H1 H2;
    split_compare; subst; cbn in *;
    try discriminate; try reflexivity; try lia.
Qed.

Lemma SFcompare_antisym (x y : spec_float) (c : comparison) :
  SFcompare x y = Some c -> SFcompare y x = Some (CompOpp c).
Proof.
  unfold SFcompare.
  destruct x as [sx|sx| |sx mx ex], y as [sy|sy| |sy my ey];
    try destruct sx; try destruct sy; cbn; try discriminate;
    intros H; injection H as <-; try reflexivity;
    rewrite (Z.compare_antisym ey ex);
    change (Pos.compare_cont Eq my mx) with (Pos.compare my mx);
    change (Pos.compare_cont Eq mx my) with (Pos.compare mx my);
    rewrite (Pos.compare_antisym my mx);
    destruct (ey ?= ex)%Z, (my ?= mx)%positive; reflexivity.
Qed.

Lemma SFcompare_refl (x : spec_float) :
  x <> S754_nan -> SFcompare x x = Some Eq.
Proof.
  destruct x as [s|s| |s m e]; try destruct s; cbn; try reflexivity;
    try congruence; intros _;
    rewrite Z.compare_refl;
    change (Pos.compare_cont Eq m m) with (Pos.compare m m);
    now rewrite Pos.compare_refl.
Qed.

Lemma SFcompare_defined (x y : spec_float) :
  x <> S754_nan -> y <> S754_nan -> exists c, SFcompare x y = Some c.
Proof.
  destruct x, y; cbn; try congruence; eauto.
Qed.

Lemma SFcompare_some (x y : spec_float) (c : comparison) :
  SFcompare x y = Some c -> x <> S754_nan /\ y <> S754_nan.
Proof.
  destruct x, y; cbn; try discriminate; split; discriminate.
Qed.

(** [x] is a number exactly when its specification is not the NaN. *)
Lemma is_nan_spec (x : float) :
  is_nan x = false <-> Prim2SF x <> S754_nan.
Proof.
  unfold is_nan. rewrite FloatAxioms.eqb_spec. unfold SFeqb.
  split.
  - intros H E. rewrite E in H. discriminate.
  - intros H. now rewrite SFcompare_refl.
Qed.


Lemma ltb_numbers (x y : float) :
  (x <? y) = true -> is_nan x = false /\ is_nan y = false.
Proof.
  rewrite FloatAxioms.ltb_spec. unfold SFltb.
  destruct (SFcompare (Prim2SF x) (Prim2SF y)) as [c|] eqn:E; [|discriminate].
  intros _. apply SFcompare_some in E.
  split; apply is_nan_spec; tauto.
Qed.

Lemma ltb_leb (x y : float) : (x <? y) = true -> (x <=? y) = true.
Proof.
  rewrite FloatAxioms.ltb_spec, FloatAxioms.leb_spec. unfold SFltb, SFleb.
  destruct (SFcompare (Prim2SF x) (Prim2SF y)) as [[]|]; auto.
Qed.

Lemma leb_trans (x y z : float) :
  (x <=? y) = true -> (y <=? z) = true -> (x <=? z) = true.
Proof. rewrite !FloatAxioms.leb_spec. apply SFleb_trans. Qed.

Lemma leb_refl (x : float) : is_nan x = false -> (x <=? x) = true.
Proof.
  intros H. apply is_nan_spec in H.
  rewrite FloatAxioms.leb_spec. unfold SFleb.
  now rewrite SFcompare_refl.
Qed.

(** On numbers the order is total. *)
Lemma not_ltb_leb (x y : float) :
  is_nan x = false -> is_nan y = false ->
  (x <? y) = false -> (y <=? x) = true.
Proof.
  intros Hx Hy. apply is_nan_spec in Hx, Hy.
  rewrite FloatAxioms.ltb_spec, FloatAxioms.leb_spec. unfold SFltb, SFleb.
  destruct (SFcompare_defined Hx Hy) as [c E].
  rewrite E, (SFcompare_antisym _ _ E).
  destruct c; cbn; congruence.
Qed.

Lemma infinity_leb (x : float) : (infinity <=? x) = true -> x = infinity.
Proof.
  rewrite FloatAxioms.leb_spec. intros H. apply Prim2SF_inj.
  change (Prim2SF infinity) with (S754_infinity false) in *.
  destruct (Prim2SF x) as [s|s| |s m e]; try destruct s; cbn in H;
    try discriminate; reflexivity.
Qed.

Lemma leb_neg_infinity (x : float) : (x <=? neg_infinity) = true -> x = neg_infinity.
Proof.
  rewrite FloatAxioms.leb_spec. intros H. apply Prim2SF_inj.
  change (Prim2SF neg_infinity) with (S754_infinity true) in *.
  destruct (Prim2SF x) as [s|s| |s m e]; try destruct s; cbn in H;
    try discriminate; reflexivity.
Qed.

(** [if (x < Infinity) min = x] leaves [x] in [min] for every number. *)
Lemma below_infinity (x : float) :
  is_nan x = false -> (if x <? infinity then x else infinity) = x.
Proof.
  intros Hx. destruct (x <? infinity) eqn:E; [reflexivity|].
  symmetry. apply infinity_leb. now apply not_ltb_leb.
Qed.

(** [if (x > -Infinity) max = x] leaves [x] in [max] for every number. *)
Lemma above_neg_infinity (x : float) :
  is_nan x = false -> (if gtb x neg_infinity then x else neg_infinity) = x.
Proof.
  intros Hx. unfold gtb. destruct (neg_infinity <? x) eqn:E; [reflexivity|].
  symmetry. apply leb_neg_infinity. now apply not_ltb_leb.
Qed.

End FloatOrder.

(* ================================================================== *)
(** ** Sign symmetry of binary64 arithmetic *)

Module FloatAlgebra.

Import FloatOrder.
Open Scope float_scope.

Lemma binary_round_aux_opp (prec emax : Z) (s : bool) (m e : Z) (l : location) :
  SFopp (binary_round_aux prec emax s m e l)
  = binary_round_aux prec emax (negb s) m e l.
Proof.
  unfold binary_round_aux.
  destruct (shr_fexp prec emax m e l) as [mrs' e'].
  destruct (shr_fexp prec emax _ e' loc_Exact) as [mrs'' e''].
  destruct (shr_m mrs''); try reflexivity.
  destruct (Z.leb e'' (emax - prec)); reflexivity.
Qed.

Lemma binary_round_opp (prec emax : Z) (s : bool) (m : positive) (e : Z) :
  SFopp (binary_round prec emax s m e) = binary_round prec emax (negb s) m e.
Proof.
  unfold binary_round.
  destruct (shl_align m e _) as [mz ez].
  apply binary_round_aux_opp.
Qed.

Lemma binary_normalize_opp (prec emax m e : Z) :
  m <> 0%Z ->
  binary_normalize prec emax (- m) e false
  = SFopp (binary_normalize prec emax m e false).
Proof.
  destruct m; cbn; intros H; try congruence; now rewrite binary_round_opp.
Qed.

Lemma SFmul_comm (prec emax : Z) (x y : spec_float) :
  SFmul prec emax x y = SFmul prec emax y x.
Proof.
  destruct x as [sx|sx| |sx mx ex], y as [sy|sy| |sy my ey]; cbn;
    try reflexivity; try (now destruct sx, sy).
  now rewrite Pos.mul_comm, Z.add_comm, xorb_comm.
Qed.

Lemma SFmul_opp_l (prec emax : Z) (x y : spec_float) :
  SFmul prec emax (SFopp x) y = SFopp (SFmul prec emax x y).
Proof.
  destruct x as [sx|sx| |sx mx ex], y as [sy|sy| |sy my ey]; cbn;
    try reflexivity; try (now destruct sx, sy).
  rewrite binary_round_aux_opp. now destruct sx, sy.
Qed.

Lemma SFdiv_opp_l (prec emax : Z) (x y : spec_float) :
  SFdiv prec emax (SFopp x) y = SFopp (SFdiv prec emax x y).
Proof.
  destruct x as [sx|sx| |sx mx ex], y as [sy|sy| |sy my ey]; cbn;
    try reflexivity; try (now destruct sx, sy).
  destruct (SFdiv_core_binary prec emax (Z.pos mx) ex (Z.pos my) ey)
    as [[mz ez] lz].
  rewrite binary_round_aux_opp. now destruct sx, sy.
Qed.

(** Swapping the operands of a subtraction negates the result, unless
    both differences are [+0]. *)
Lemma SFsub_swap (prec emax : Z) (x y : spec_float) :
  SFsub prec emax y x = SFopp (SFsub prec emax x y)
  \/ (SFsub prec emax x y = S754_zero false
      /\ SFsub prec emax y x = S754_zero false).
Proof.
  destruct x as [sx|sx| |sx mx ex], y as [sy|sy| |sy my ey]; cbn;
    try (left; reflexivity);
    try (destruct sx, sy; cbn; auto; fail).
  rewrite (Z.min_comm ey ex).
  set (a := cond_Zopp sx _). set (b := cond_Zopp sy _).
  destruct (Z.eq_dec (a - b) 0) as [E|E].
  - right. replace (b - a)%Z with 0%Z by lia. rewrite E. split; reflexivity.
  - left. replace (b - a)%Z with (- (a - b))%Z by lia.
    now apply binary_normalize_opp.
Qed.

Definition SFfinite (x : spec_float) : Prop :=
  match x with
  | S754_zero _ | S754_finite _ _ _ => True
  | _ => False
  end.

Lemma SFsub_diag (prec emax : Z) (x : spec_float) :
  SFfinite x -> SFsub prec emax x x = S754_zero false.
Proof.
  destruct x as [s|s| |s m e]; cbn; try tauto; intros _.
  - now destruct s.
  - now rewrite Z.sub_diag.
Qed.

Lemma SFeqb_opp (a b : spec_float) : SFeqb (SFopp a) b = SFeqb a (SFopp b).
Proof.
  unfold SFeqb, SFcompare.
  destruct a as [sa|sa| |sa ma ea], b as [sb|sb| |sb mb eb];
    try destruct sa; try destruct sb; cbn; try reflexivity;
    split_compare; reflexivity.
Qed.

Lemma SFeqb_replace (a b c : spec_float) :
  SFeqb a b = true -> SFeqb a c = SFeqb b c.
Proof.
  unfold SFeqb, SFcompare.
  destruct a as [sa|sa| |sa ma ea], b as [sb|sb| |sb mb eb],
           c as [sc|sc| |sc mc ec];
    try destruct sa; try destruct sb; try destruct sc; cbn;
    try discriminate; try reflexivity; intros H;
    split_compare; subst; cbn in *;
    try discriminate; try reflexivity; try lia.
Qed.

(** *** The same facts on [float] *)

Lemma is_finite_spec (x : float) : is_finite x = true -> SFfinite (Prim2SF x).
Proof.
  unfold is_finite. rewrite classify_spec. unfold SF64classify.
  destruct (Prim2SF x) as [s|s| |s m e]; cbn; try destruct s;
    try discriminate; auto.
Qed.

Lemma opp_involutive (x : float) : - - x = x.
Proof.
  apply Prim2SF_inj. rewrite !opp_spec.
  destruct (Prim2SF x); cbn; try reflexivity; now rewrite negb_involutive.
Qed.

Lemma mul_comm (x y : float) : x * y = y * x.
Proof. apply Prim2SF_inj. rewrite !mul_spec. apply SFmul_comm. Qed.

Lemma mul_opp_l (x y : float) : - x * y = - (x * y).
Proof.
  apply Prim2SF_inj. rewrite opp_spec, !mul_spec, opp_spec.
  apply SFmul_opp_l.
Qed.

Lemma mul_opp_r (x y : float) : x * - y = - (x * y).
Proof. now rewrite mul_comm, mul_opp_l, mul_comm. Qed.

Lemma div_opp_l (x y : float) : - x / y = - (x / y).
Proof.
  apply Prim2SF_inj. rewrite opp_spec, !div_spec, opp_spec.
  apply SFdiv_opp_l.
Qed.

Lemma sub_swap (x y : float) :
  y - x = - (x - y) \/ (x - y = 0 /\ y - x = 0).
Proof.
  destruct (SFsub_swap prec emax (Prim2SF x) (Prim2SF y)) as [H|[H1 H2]].
  - left. apply Prim2SF_inj. now rewrite opp_spec, !sub_spec.
  - right. split; apply Prim2SF_inj; now rewrite sub_spec.
Qed.

Lemma sub_diag (x : float) : is_finite x = true -> x - x = 0.
Proof.
  intros H. apply Prim2SF_inj. rewrite sub_spec.
  apply SFsub_diag. now apply is_finite_spec.
Qed.

(** [0 + c * 0 * 0] is [+0] for every finite [c], whatever its sign. *)
Lemma zero_plus_finite_times_zero (c : float) :
  is_finite c = true -> 0 + c * 0 * 0 = 0.
Proof.
  intros H. apply is_finite_spec in H.
  apply Prim2SF_inj. rewrite add_spec, !mul_spec.
  change (Prim2SF 0) with (S754_zero false).
  destruct (Prim2SF c) as [s|s| |s m e]; cbn in *; try tauto;
    now destruct s.
Qed.

Lemma eqb_opp (x y : float) : (- x =? y) = (x =? - y).
Proof.
  rewrite !FloatAxioms.eqb_spec, !opp_spec. apply SFeqb_opp.
Qed.

Lemma eqb_replace (x y z : float) : (x =? y) = true -> (x =? z) = (y =? z).
Proof. rewrite !FloatAxioms.eqb_spec. apply SFeqb_replace. Qed.

Lemma eqb_neg_zero (x : float) : (x =? - 0) = (x =? 0).
Proof.
  rewrite !FloatAxioms.eqb_spec.
  change (Prim2SF (- 0)) with (S754_zero true).
  change (Prim2SF 0) with (S754_zero false).
  now destruct (Prim2SF x).
Qed.

Lemma leb_not_ltb (x y : float) : (x <=? y) = true -> (y <? x) = false.
Proof.
  rewrite FloatAxioms.leb_spec, FloatAxioms.ltb_spec. unfold SFleb, SFltb.
  destruct (SFcompare (Prim2SF x) (Prim2SF y)) as [c|] eqn:E; [|discriminate].
  rewrite (SFcompare_antisym _ _ E).
  destruct c; cbn; congruence.
Qed.


End FloatAlgebra.

(* ================================================================== *)
(** ** The concrete runs do not depend on the rest of the engine *)

Section AnyEngine.

Open Scope float_scope.

Variable Math_sin : float -> float.
Variable Math_cos : float -> float.
Variable Math_atan2 : float -> float -> float.

(** The five values the walk along the equator needs. *)
Hypothesis sin_zero : Math_sin 0 = 0.
Hypothesis cos_zero : Math_cos 0 = 1.
Hypothesis sin_half_pi : Math_sin (Math_PI / 2) = 1.
Hypothesis sin_minus_half_pi : Math_sin (- (Math_PI / 2)) = -1.
Hypothesis atan2_one_zero : Math_atan2 1 0 = Math_PI / 2.

Local Abbreviation haversine := (haversineDistance Math_sin Math_cos Math_atan2).

(** Half the equator: [6371000 * Math.PI]. *)
Lemma distance_eastwards : haversine 0 0 0 180 = 6371000 * Math_PI.
Proof.
  unfold haversineDistance, haversine_a. cbv zeta.
  change ((0 - 0) * Math_PI / 180 / 2) with 0.
  change ((180 - 0) * Math_PI / 180 / 2) with (Math_PI / 2).
  change (0 * Math_PI / 180) with 0.
  rewrite sin_zero, cos_zero, sin_half_pi.
  change (0 * 0 + 1 * 1 * 1 * 1) with 1.
  change (sqrt 1) with 1. change (sqrt (1 - 1)) with 0.
  rewrite atan2_one_zero. reflexivity.
Qed.

Lemma distance_westwards : haversine 0 180 0 0 = 6371000 * Math_PI.
Proof.
  unfold haversineDistance, haversine_a. cbv zeta.
  change ((0 - 0) * Math_PI / 180 / 2) with 0.
  change ((0 - 180) * Math_PI / 180 / 2) with (- (Math_PI / 2)).
  change (0 * Math_PI / 180) with 0.
  rewrite sin_zero, cos_zero, sin_minus_half_pi.
  change (0 * 0 + 1 * 1 * -1 * -1) with 1.
  change (sqrt 1) with 1. change (sqrt (1 - 1)) with 0.
  rewrite atan2_one_zero. reflexivity.
Qed.

Lemma walk_head (n : nat) (east : bool) :
  exists tl : list TrackPoint,
    Engine.antipodal_walk n east
    = mkPoint 0 (if east then 180 else 0) 0 :: tl.
Proof. destruct n; cbn; eauto. Qed.

Lemma walk_segments (n : nat) (east : bool) :
  segment_distances Math_sin Math_cos Math_atan2 (Engine.antipodal_walk n east)
  = repeat (6371000 * Math_PI) n.
Proof.
  revert east; induction n as [|n IH]; intros east; [reflexivity|].
  change (Engine.antipodal_walk (S n) east)
    with (mkPoint 0 (if east then 180 else 0) 0
            :: Engine.antipodal_walk n (negb east)).
  destruct (walk_head n (negb east)) as [tl E].
  rewrite E, segments_cons, <- E, IH.
  cbn [lat lon repeat].
  destruct east; cbn [negb];
    [rewrite distance_westwards | rewrite distance_eastwards]; reflexivity.
Qed.

End AnyEngine.

(** On the walk, every engine with these five values computes the
    statistics and the chart series of the table. *)
Lemma walk_stats (Math_sin Math_cos : float -> float)
  (Math_atan2 : float -> float -> float) (n : nat) (east : bool) :
  Math_sin 0 = 0%float ->
  Math_cos 0 = 1%float ->
  Math_sin (Math_PI / 2) = 1%float ->
  Math_sin (- (Math_PI / 2)) = (-1)%float ->
  Math_atan2 1 0 = (Math_PI / 2)%float ->
  updateStats Math_sin Math_cos Math_atan2 (Engine.antipodal_walk n east)
  = updateStats Engine.sin Engine.cos Engine.atan2 (Engine.antipodal_walk n east)
  /\ drawElevationChart Math_sin Math_cos Math_atan2 (Engine.antipodal_walk n east)
     = drawElevationChart Engine.sin Engine.cos Engine.atan2
         (Engine.antipodal_walk n east).
Proof.
  intros S0 C0 S1 S2 A.
  destruct (walk_head n east) as [tl E].
  rewrite E, !updateStats_cons, !chart_range, <- E.
  rewrite (walk_segments Math_sin Math_cos Math_atan2 S0 C0 S1 S2 A).
  rewrite (walk_segments Engine.sin Engine.cos Engine.atan2
             eq_refl eq_refl eq_refl eq_refl eq_refl).
  split; reflexivity.
Qed.

(* ================================================================== *)
(** ** Single points and the two distance loops *)

Section StatisticsFacts.

Open Scope float_scope.

Variable Math_sin : float -> float.
Variable Math_cos : float -> float.
Variable Math_atan2 : float -> float -> float.

Local Abbreviation haversine := (haversineDistance Math_sin Math_cos Math_atan2).
Local Abbreviation segments := (segment_distances Math_sin Math_cos Math_atan2).
Local Abbreviation stats := (updateStats Math_sin Math_cos Math_atan2).
Local Abbreviation chart := (drawElevationChart Math_sin Math_cos Math_atan2).
Local Abbreviation nearest := (getDistanceToTrail Math_sin Math_cos Math_atan2).
Local Abbreviation vertices := (vertex_distances Math_sin Math_cos Math_atan2).

(** C6 (amended): for every single-point track whose elevation is a
    number (not NaN), [updateStats] completes and yields total distance
    0, elevation gain 0 and minimum elevation = maximum elevation =
    that point's elevation.  When the elevation is NaN the computation
    completes as well, with the minimum left at [Infinity] and the
    maximum at [-Infinity]. *)
Theorem single_point_stats :
  (forall p : TrackPoint,
     is_nan (ele p) = false ->
     stats [p] = Ok (mkStats 0 0 (ele p) (ele p)))
  /\ (forall la lo : float,
        stats [mkPoint la lo nan] = Ok (mkStats 0 0 infinity neg_infinity)).
Proof.
  split.
  - intros p Hp.
    rewrite updateStats_cons.
    cbn [elevation_pairs elevation_first acc_gain acc_min acc_max
         segment_distances sum_from fold_left].
    now rewrite FloatOrder.below_infinity, FloatOrder.above_neg_infinity.
  - intros la lo. now rewrite updateStats_cons.
Qed.

Lemma last_series (xs : list float) (acc hd d : float) :
  last (hd :: map to_km (running_totals acc xs)) d
  = match xs with
    | [] => hd
    | _ :: _ => to_km (sum_from acc xs)
    end.
Proof.
  revert acc hd; induction xs as [|x rest IH]; intros acc hd; [reflexivity|].
  cbn [running_totals map].
  change (last (hd :: to_km (acc + x) :: map to_km (running_totals (acc + x) rest)) d)
    with (last (to_km (acc + x) :: map to_km (running_totals (acc + x) rest)) d).
  rewrite IH.
  destruct rest; reflexivity.
Qed.

(** C10 (amended): for every non-empty track the two distance loops
    accumulate the same running total: the total distance of
    [updateStats] is the final [cumulative] of [drawElevationChart].
    The last entry of the series is that total divided by 1000 when
    the track has at least two points; for a single point the total
    and the last entry are both 0. *)
Theorem distance_loops_agree (p : TrackPoint) (tl : list TrackPoint) :
  exists (s : Stats) (c : ChartAcc),
    stats (p :: tl) = Ok s
    /\ chart (p :: tl) = Ok c
    /\ totalDistance s = cumulative c
    /\ match tl with
       | [] => totalDistance s = 0 /\ last (distances c) 0 = 0
       | _ :: _ => last (distances c) 0 = to_km (totalDistance s)
       end.
Proof.
  rewrite updateStats_cons, chart_range.
  do 2 eexists. split; [reflexivity|]. split; [reflexivity|].
  cbn [totalDistance cumulative distances].
  split; [reflexivity|].
  rewrite last_series.
  destruct tl as [|q tl]; [split; reflexivity|].
  rewrite segments_cons. reflexivity.
Qed.

End StatisticsFacts.

(** C6, the claim as stated fails: a single point whose elevation is
    NaN (the numeric reading of a point object without an [ele] field)
    leaves the minimum at [Infinity] and the maximum at [-Infinity]. *)
Lemma single_point_nan_elevation :
  updateStats Engine.sin Engine.cos Engine.atan2 [mkPoint 0 0 nan]
  = Ok (mkStats 0 0 infinity neg_infinity).
Proof. reflexivity. Qed.

Lemma single_point_stats_witness :
  is_nan 250 = false
  /\ updateStats Engine.sin Engine.cos Engine.atan2 [mkPoint 46.5 11.25 250]
     = Ok (mkStats 0 0 250 250).
Proof.
  split; [reflexivity|].
  apply (proj1 (single_point_stats Engine.sin Engine.cos Engine.atan2)
           (mkPoint 46.5 11.25 250)).
  reflexivity.
Defined.

(** C10, the claim as stated fails: on the 108-point walk between
    (0, 0) and (0, 180) the statistics total and the chart total agree,
    but 1000 times the last series entry is not the total: dividing by
    1000 and multiplying back does not round to the same double. *)
Lemma thousand_times_last_entry_differs :
  exists (s : Stats) (c : ChartAcc),
    updateStats Engine.sin Engine.cos Engine.atan2
      (Engine.antipodal_walk 107 false) = Ok s
    /\ drawElevationChart Engine.sin Engine.cos Engine.atan2
         (Engine.antipodal_walk 107 false) = Ok c
    /\ List.length (Engine.antipodal_walk 107 false) = 108%nat
    /\ totalDistance s = cumulative c
    /\ PrimFloat.eqb (totalDistance s) (1000 * last (distances c) 0) = false
    /\ PrimFloat.ltb (totalDistance s) (1000 * last (distances c) 0) = true.
Proof.
  do 2 eexists.
  split; [vm_compute; reflexivity|].
  split; [vm_compute; reflexivity|].
  vm_compute. repeat split.
Qed.

(* ================================================================== *)
(** ** The nearest vertex *)

Section NearestFacts.

Open Scope float_scope.

Variable Math_sin : float -> float.
Variable Math_cos : float -> float.
Variable Math_atan2 : float -> float -> float.

Local Abbreviation nearest := (getDistanceToTrail Math_sin Math_cos Math_atan2).
Local Abbreviation vertices := (vertex_distances Math_sin Math_cos Math_atan2).

(** [if (dist < minDist) minDist = dist] *)
Definition lower (minDist dist : float) : float :=
  if dist <? minDist then dist else minDist.

Lemma nearest_fold (lat0 lon0 : float) (pts : list TrackPoint) (m : float) :
  fold_left (nearest_step Math_sin Math_cos Math_atan2 lat0 lon0) pts m
  = fold_left lower (vertices lat0 lon0 pts) m.
Proof.
  revert m; induction pts as [|p pts IH]; intros m; [reflexivity|].
  cbn [fold_left vertex_distances map]. apply IH.
Qed.

Lemma lower_fold (ds : list float) (m : float) :
  is_nan m = false ->
  is_nan (fold_left lower ds m) = false
  /\ (fold_left lower ds m <=? m) = true
  /\ (forall d, In d ds -> is_nan d = false -> (fold_left lower ds m <=? d) = true)
  /\ (fold_left lower ds m = m \/ In (fold_left lower ds m) ds).
Proof.
  revert m; induction ds as [|d ds IH]; intros m Hm.
  - cbn. repeat split; auto using FloatOrder.leb_refl; try (now intros d []).
  - cbn [fold_left]. unfold lower at 2 4 6 8 10.
    destruct (d <? m) eqn:E.
    + destruct (FloatOrder.ltb_numbers E) as [Hd _].
      destruct (IH d Hd) as (N & L & A & M).
      repeat split; auto.
      * eapply FloatOrder.leb_trans; [exact L|]. now apply FloatOrder.ltb_leb.
      * intros x [<-|Hx] Nx; auto.
      * destruct M as [->|M]; right; [now left | now right].
    + destruct (IH m Hm) as (N & L & A & M).
      repeat split; auto.
      * intros x [<-|Hx] Nx; auto.
        eapply FloatOrder.leb_trans; [exact L|].
        now apply FloatOrder.not_ltb_leb.
      * destruct M as [M|M]; [now left | right; now right].
Qed.

(** C3 (amended): for every query point and every list of track points
    [getDistanceToTrail] returns the least vertex distance that is a
    number: the result is below or equal to every vertex distance that
    is not NaN and, when there is such a distance, it is the distance
    to one of the vertices.  In particular, for a non-empty list
    without NaN distances it is the minimum over all vertices.  For the
    empty list it returns [Infinity]; it does not fail. *)
Theorem nearest_distance_to_polyline (lat0 lon0 : float) (pts : list TrackPoint) :
  (forall d : float,
     In d (vertices lat0 lon0 pts) -> is_nan d = false ->
     (nearest lat0 lon0 pts <=? d) = true)
  /\ ((exists d : float, In d (vertices lat0 lon0 pts) /\ is_nan d = false) ->
      In (nearest lat0 lon0 pts) (vertices lat0 lon0 pts))
  /\ (pts <> [] ->
      (forall d : float, In d (vertices lat0 lon0 pts) -> is_nan d = false) ->
      In (nearest lat0 lon0 pts) (vertices lat0 lon0 pts)
      /\ forall d : float,
           In d (vertices lat0 lon0 pts) ->
           (nearest lat0 lon0 pts <=? d) = true)
  /\ (pts = [] -> nearest lat0 lon0 pts = infinity).
Proof.
  unfold getDistanceToTrail. rewrite nearest_fold.
  destruct (lower_fold (vertices lat0 lon0 pts) infinity eq_refl)
    as (N & L & A & M).
  assert (B : (exists d : float,
                 In d (vertices lat0 lon0 pts) /\ is_nan d = false) ->
              In (fold_left lower (vertices lat0 lon0 pts) infinity)
                 (vertices lat0 lon0 pts)).
  { intros (d & Hd & Nd).
    destruct M as [M|M]; [|exact M].
    pose proof (A d Hd Nd) as Le. rewrite M in Le.
    apply FloatOrder.infinity_leb in Le.
    rewrite M, <- Le. exact Hd. }
  split; [exact A|]. split; [exact B|]. split.
  - intros Hne Hall. split.
    + apply B. destruct pts as [|p tl]; [congruence|].
      eexists. split; [left; reflexivity|]. apply Hall. now left.
    + intros d Hd. apply A; auto.
  - intros ->. reflexivity.
Qed.

End NearestFacts.

Lemma nearest_distance_witness :
  vertex_distances Engine.sin Engine.cos Engine.atan2 0 0
    [mkPoint 0 180 0; mkPoint 0 0 0]
  = [(6371000 * Math_PI)%float; 0%float]
  /\ In (getDistanceToTrail Engine.sin Engine.cos Engine.atan2 0 0
           [mkPoint 0 180 0; mkPoint 0 0 0])
        (vertex_distances Engine.sin Engine.cos Engine.atan2 0 0
           [mkPoint 0 180 0; mkPoint 0 0 0])
  /\ getDistanceToTrail Engine.sin Engine.cos Engine.atan2 0 0
       [mkPoint 0 180 0; mkPoint 0 0 0] = 0%float.
Proof.
  split; [reflexivity|]. split; [|reflexivity].
  apply (proj1 (proj2 (proj2 (nearest_distance_to_polyline
                                Engine.sin Engine.cos Engine.atan2 0 0
                                [mkPoint 0 180 0; mkPoint 0 0 0])))).
  - discriminate.
  - intros d [<-|[<-|[]]]; reflexivity.
Defined.

(** C3, the claim as stated fails: on an empty track the distance
    routine completes and returns [Infinity]; no failure is raised. *)
Lemma nearest_of_empty_track_is_infinity :
  getDistanceToTrail Engine.sin Engine.cos Engine.atan2 0 0 [] = infinity
  /\ distanceToTrail Engine.sin Engine.cos Engine.atan2 Engine.ToNumber_other
       0 0 (initial_state true) = Ok infinity.
Proof. split; reflexivity. Qed.

(* ================================================================== *)
(** ** The great-circle distance *)

Section DistanceFacts.

Import FloatAlgebra.
Open Scope float_scope.

Variable Math_sin : float -> float.
Variable Math_cos : float -> float.
Variable Math_atan2 : float -> float -> float.

Local Abbreviation haversine := (haversineDistance Math_sin Math_cos Math_atan2).
Local Abbreviation central_a := (haversine_a Math_sin Math_cos).

(** Degrees to half the angle in radians, as the formula computes it. *)
Lemma half_angle_opp (d : float) :
  - d * Math_PI / 180 / 2 = - (d * Math_PI / 180 / 2).
Proof. now rewrite mul_opp_l, !div_opp_l. Qed.

Section OddSine.

(** [Math.sin] is an odd function in every engine; ECMA-262 does not
    demand it. *)
Hypothesis sin_odd : forall x : float, Math_sin (- x) = - Math_sin x.

Lemma sin_squared_swap (x y : float) :
  Math_sin ((y - x) * Math_PI / 180 / 2) * Math_sin ((y - x) * Math_PI / 180 / 2)
  = Math_sin ((x - y) * Math_PI / 180 / 2) * Math_sin ((x - y) * Math_PI / 180 / 2).
Proof.
  destruct (sub_swap x y) as [H|[H1 H2]].
  - rewrite H, half_angle_opp, sin_odd.
    now rewrite mul_opp_l, mul_opp_r, opp_involutive.
  - now rewrite H1, H2.
Qed.

Lemma scaled_sin_squared_swap (c x y : float) :
  c * Math_sin ((y - x) * Math_PI / 180 / 2)
    * Math_sin ((y - x) * Math_PI / 180 / 2)
  = c * Math_sin ((x - y) * Math_PI / 180 / 2)
      * Math_sin ((x - y) * Math_PI / 180 / 2).
Proof.
  destruct (sub_swap x y) as [H|[H1 H2]].
  - rewrite H, half_angle_opp, sin_odd.
    now rewrite !mul_opp_r, !mul_opp_l, opp_involutive.
  - now rewrite H1, H2.
Qed.

Lemma central_a_symmetric (lat1 lon1 lat2 lon2 : float) :
  central_a lat1 lon1 lat2 lon2 = central_a lat2 lon2 lat1 lon1.
Proof.
  unfold haversine_a. cbv zeta.
  rewrite (sin_squared_swap lat1 lat2).
  rewrite (scaled_sin_squared_swap _ lon1 lon2).
  now rewrite (mul_comm (Math_cos (lat1 * Math_PI / 180))).
Qed.

End OddSine.

(** The central-angle term for two coordinate-identical points. *)
Lemma central_a_identical (lat0 lon0 : float) :
  Math_sin 0 = 0 ->
  is_finite lat0 = true ->
  is_finite lon0 = true ->
  is_finite (Math_cos (lat0 * Math_PI / 180) * Math_cos (lat0 * Math_PI / 180))
    = true ->
  central_a lat0 lon0 lat0 lon0 = 0.
Proof.
  intros S0 Hlat Hlon Hcos.
  unfold haversine_a. cbv zeta.
  rewrite (sub_diag _ Hlat), (sub_diag _ Hlon).
  change (0 * Math_PI / 180 / 2) with 0.
  rewrite S0.
  change (0 * 0) with 0.
  now apply zero_plus_finite_times_zero.
Qed.

(** C7 (amended): [haversineDistance] is symmetric, [d(A,B) = d(B,A)]
    for every pair of points, whenever the engine's [Math.sin] is odd;
    and with the values ECMA-262 fixes ([sin(+0) = +0],
    [atan2(+0, 1) = +0]) it returns zero for two coordinate-identical
    points whose coordinates are finite and whose squared cosine of
    latitude is finite.  (The converse does not hold.) *)
Theorem great_circle_distance_symmetric_zero_on_identical :
  (forall x : float, Math_sin (- x) = - Math_sin x) ->
  Math_sin 0 = 0 ->
  Math_atan2 0 1 = 0 ->
  (forall lat1 lon1 lat2 lon2 : float,
     haversine lat1 lon1 lat2 lon2 = haversine lat2 lon2 lat1 lon1)
  /\ (forall lat0 lon0 : float,
        is_finite lat0 = true ->
        is_finite lon0 = true ->
        is_finite (Math_cos (lat0 * Math_PI / 180)
                   * Math_cos (lat0 * Math_PI / 180)) = true ->
        haversine lat0 lon0 lat0 lon0 = 0).
Proof.
  intros sin_odd S0 A0. split.
  - intros lat1 lon1 lat2 lon2. unfold haversineDistance. cbv zeta.
    now rewrite (central_a_symmetric sin_odd lat1 lon1 lat2 lon2).
  - intros lat0 lon0 Hlat Hlon Hcos. unfold haversineDistance. cbv zeta.
    rewrite (central_a_identical lat0 lon0 S0 Hlat Hlon Hcos).
    change (sqrt 0) with 0. change (sqrt (1 - 0)) with 1.
    rewrite A0. reflexivity.
Qed.

(** Two points that differ in latitude by the smallest positive
    double are at distance 0 in every engine: only the values that
    ECMA-262 fixes are used. *)
Lemma underflow_to_zero_distance :
  Math_sin 0 = 0 -> Math_cos 0 = 1 -> Math_atan2 0 1 = 0 ->
  haversine 0 0 0x1p-1074 0 = 0.
Proof.
  intros S0 C0 A0.
  unfold haversineDistance, haversine_a. cbv zeta.
  change ((0x1p-1074 - 0) * Math_PI / 180 / 2) with 0.
  change ((0 - 0) * Math_PI / 180 / 2) with 0.
  change (0x1p-1074 * Math_PI / 180) with 0.
  change (0 * Math_PI / 180) with 0.
  rewrite S0, C0.
  change (0 * 0 + 1 * 1 * 0 * 0) with 0.
  change (sqrt 0) with 0. change (sqrt (1 - 0)) with 1.
  rewrite A0. reflexivity.
Qed.

End DistanceFacts.

Module EngineFacts.

Import FloatAlgebra.
Open Scope float_scope.

Lemma sin_odd (x : float) : Engine.sin (- x) = - Engine.sin x.
Proof.
  unfold Engine.sin.
  rewrite !eqb_opp.
  change (- - (Math_PI / 2)) with (Math_PI / 2).
  rewrite eqb_neg_zero.
  destruct (x =? 0); [reflexivity|].
  destruct (x =? Math_PI / 2) eqn:E1, (x =? - (Math_PI / 2)) eqn:E2;
    try reflexivity.
  rewrite (eqb_replace (- (Math_PI / 2)) E1) in E2. discriminate.
Qed.

End EngineFacts.

Lemma great_circle_distance_witness :
  (forall x : float, Engine.sin (- x) = (- Engine.sin x)%float)
  /\ Engine.sin 0 = 0%float
  /\ Engine.atan2 0 1 = 0%float
  /\ is_finite 0 = true
  /\ is_finite (Engine.cos (0 * Math_PI / 180) * Engine.cos (0 * Math_PI / 180))
     = true
  /\ haversineDistance Engine.sin Engine.cos Engine.atan2 0 0 0 180
     = haversineDistance Engine.sin Engine.cos Engine.atan2 0 180 0 0
  /\ haversineDistance Engine.sin Engine.cos Engine.atan2 0 0 0 0 = 0%float.
Proof.
  split; [exact EngineFacts.sin_odd|].
  split; [reflexivity|]. split; [reflexivity|].
  split; [reflexivity|]. split; [reflexivity|].
  split.
  - apply (proj1 (great_circle_distance_symmetric_zero_on_identical
                    Engine.sin Engine.cos Engine.atan2
                    EngineFacts.sin_odd eq_refl eq_refl)).
  - apply (proj2 (great_circle_distance_symmetric_zero_on_identical
                    Engine.sin Engine.cos Engine.atan2
                    EngineFacts.sin_odd eq_refl eq_refl));
      reflexivity.
Defined.

(** C7, the claim as stated fails: the points (0, 0) and (5e-324, 0)
    differ in latitude, yet their distance is exactly 0, because the
    latitude difference in radians underflows to 0.  In the other
    direction, a point with an infinite latitude is at distance NaN,
    not 0, from itself. *)
Lemma distinct_points_at_distance_zero :
  PrimFloat.eqb 0 0x1p-1074 = false
  /\ haversineDistance Engine.sin Engine.cos Engine.atan2 0 0 0x1p-1074 0
     = 0%float
  /\ haversineDistance Engine.sin Engine.cos Engine.atan2 infinity 0 infinity 0
     = nan.
Proof. repeat split. Qed.

(* ================================================================== *)
(** ** The square-root arguments of the central-angle formula *)

Section ClampFacts.

Import FloatOrder FloatAlgebra.
Open Scope float_scope.

Variable Math_sin : float -> float.
Variable Math_cos : float -> float.
Variable Math_atan2 : float -> float -> float.

Local Abbreviation haversine := (haversineDistance Math_sin Math_cos Math_atan2).
Local Abbreviation central_a := (haversine_a Math_sin Math_cos).






Lemma nan_plus (y : float) : nan + y = nan.
Proof.
  apply Prim2SF_inj. rewrite add_spec.
  change (Prim2SF nan) with S754_nan. reflexivity.
Qed.

(** An infinite latitude makes [a] NaN in every engine: the sine of an
    infinite angle is NaN by ECMA-262. *)
Lemma infinite_latitude_gives_nan (lat1 lon1 lon2 : float) :
  Math_sin infinity = nan ->
  is_finite lat1 = true ->
  central_a lat1 lon1 infinity lon2 = nan.
Proof.
  intros Sinf F.
  assert (D : infinity - lat1 = infinity).
  { apply Prim2SF_inj. rewrite sub_spec.
    apply is_finite_spec in F.
    change (Prim2SF infinity) with (S754_infinity false).
    destruct (Prim2SF lat1); cbn in *; tauto. }
  unfold haversine_a. cbv zeta.
  rewrite D.
  change (infinity * Math_PI / 180 / 2) with infinity.
  rewrite Sinf.
  change (nan * nan) with nan.
  apply nan_plus.
Qed.

End ClampFacts.



(* ================================================================== *)
(** ** Ingestion *)

Module IngestFacts.

Import Js Ingest Session.
Open Scope string_scope.





(** A [{lon, lat, ele}] point object. *)
Definition point (la lo el : float) : value :=
  VObj [("lon", VNum lo); ("lat", VNum la); ("ele", VNum el)].





End IngestFacts.

(* ================================================================== *)
(** ** Loading a track *)

Module LoadFacts.

Import Js Ingest Session IngestFacts.
Open Scope string_scope.





End LoadFacts.

(* ================================================================== *)
(** ** Loading a track while a position fix exists *)

Section ProximityFacts.

Import Js Ingest Session IngestFacts.
Open Scope string_scope.

Variable Math_sin : float -> float.
Variable Math_cos : float -> float.
Variable Math_atan2 : float -> float -> float.
Variable ToNumber_other : value -> float.

Local Abbreviation distance_to :=
  (distanceToTrail Math_sin Math_cos Math_atan2 ToNumber_other).
Local Abbreviation on_fix :=
  (onPositionUpdate Math_sin Math_cos Math_atan2 ToNumber_other).

(** The calls [loadTrackData] can append to the trace. *)
Definition is_indicator_update (e : effect) : bool :=
  match e with
  | UpdateDistanceIndicator _ => true
  | _ => false
  end.

Lemma drawTrack_keeps_proximity (coords : list value) (st : State) :
  userPosition (fst (drawTrack coords st)) = userPosition st
  /\ distanceIndicator (fst (drawTrack coords st)) = distanceIndicator st
  /\ trace (fst (drawTrack coords st)) = trace st
  /\ trackData (fst (drawTrack coords st)) = trackData st
  /\ geolocation (fst (drawTrack coords st)) = geolocation st.
Proof.
  unfold drawTrack.
  destruct (mapM to_latLng coords) as [[|first rest]|e]; cbn; repeat split.
Qed.

Lemma startGPSTracking_keeps_proximity (st : State) :
  userPosition (startGPSTracking st) = userPosition st
  /\ distanceIndicator (startGPSTracking st) = distanceIndicator st
  /\ trackData (startGPSTracking st) = trackData st
  /\ exists status,
       trace (startGPSTracking st) = (trace st ++ [UpdateGPSStatus status])%list.
Proof.
  unfold startGPSTracking.
  destruct (geolocation st); cbn; repeat split; eauto.
Qed.

(** What a load does to the proximity part of the session. *)
Lemma load_keeps_proximity (json : value) (filename : string) (st : State) :
  let st' := fst (loadTrackData json filename st) in
  userPosition st' = userPosition st
  /\ distanceIndicator st' = distanceIndicator st
  /\ exists calls : list effect,
       trace st' = (trace st ++ calls)%list
       /\ forallb (fun e => negb (is_indicator_update e)) calls = true.
Proof.
  unfold loadTrackData.
  destruct (resolve json) as [[r [|c cs]]|e]; cbn zeta.
  - cbn. repeat split.
    exists [Alert CouldNotFindTrackData; ShowLoading false].
    now rewrite <- app_assoc.
  - match goal with
    | |- context [drawTrack ?cs ?s] =>
        destruct (drawTrack_keeps_proximity cs s) as (U & I & T & _);
        destruct (drawTrack cs s) as [s1 [[]|e]]
    end; cbn [fst snd] in *.
    + match goal with
      | |- context [startGPSTracking ?s] =>
          destruct (startGPSTracking_keeps_proximity s) as (U' & I' & _ & status & T')
      end.
      rewrite U', I', T'. cbn. rewrite U, I, T. cbn.
      repeat split.
      exists [SetTrailName (trail_name filename); DrawTrack (c :: cs);
              UpdateStats (c :: cs); DrawElevationChart (c :: cs);
              HideDropZone; ShowLoading false; UpdateGPSStatus status].
      split; [|reflexivity].
      now rewrite <- !app_assoc.
    + rewrite U, I, T. cbn. repeat split.
      exists [SetTrailName (trail_name filename); DrawTrack (c :: cs)].
      split; [|reflexivity].
      now rewrite <- !app_assoc.
  - cbn. repeat split. exists []. now rewrite app_nil_r.
Qed.

(** A completed load installs the resolved point list. *)
Lemma completed_load_installs_track (json : value) (filename : string) (st : State) :
  snd (loadTrackData json filename st) = Completed ->
  exists (r : rule) (c : value) (cs : list value),
    resolve json = Ok (r, c :: cs)
    /\ trackData (fst (loadTrackData json filename st)) = c :: cs.
Proof.
  unfold loadTrackData.
  destruct (resolve json) as [[r [|c cs]]|e]; cbn zeta; try discriminate.
  match goal with
  | |- context [drawTrack ?cs ?s] =>
      destruct (drawTrack_keeps_proximity cs s) as (_ & _ & _ & D & _);
      destruct (drawTrack cs s) as [s1 [[]|e]]
  end; cbn [fst snd] in *; try discriminate.
  intros _. exists r, c, cs. split; [reflexivity|].
  match goal with
  | |- context [startGPSTracking ?s] =>
      destruct (startGPSTracking_keeps_proximity s) as (_ & _ & D' & _)
  end.
  rewrite D'. cbn. now rewrite D.
Qed.

Lemma distance_reads_trackData (la lo : float) (s1 s2 : State) :
  trackData s1 = trackData s2 -> distance_to la lo s1 = distance_to la lo s2.
Proof. unfold distanceToTrail. now intros ->. Qed.

(** A position update on a session with a track shows the distance to
    that track. *)
Lemma fix_updates_indicator (p : position) (st : State) (d : float) :
  trackData st <> [] ->
  distance_to (fix_lat p) (fix_lon p) st = Ok d ->
  snd (on_fix p st) = Completed
  /\ distanceIndicator (fst (on_fix p st)) = Some (d, band_of d)
  /\ userPosition (fst (on_fix p st)) = Some p.
Proof.
  intros Hne Hd. unfold onPositionUpdate.
  set (s1 := emit _ (set_user p st)).
  assert (T : trackData s1 = trackData st) by reflexivity.
  rewrite (distance_reads_trackData _ _ s1 st T), Hd, T.
  destruct (trackData st) as [|c cs]; [congruence|].
  cbn. repeat split.
Qed.

(** Without a track a position update does not call the distance
    routine. *)
Lemma fix_without_track (p : position) (st : State) :
  trackData st = [] ->
  snd (on_fix p st) = Completed
  /\ distanceIndicator (fst (on_fix p st)) = distanceIndicator st
  /\ trace (fst (on_fix p st))
     = (trace st ++ [UpdateGPSStatus (GpsActive (fix_accuracy p))])%list.
Proof.
  intros E. unfold onPositionUpdate.
  cbn [trackData emit set_user]. rewrite E. repeat split.
Qed.

(** C9 (amended): for every state, a position fix included, loading a
    track does not touch the proximity result: after [loadTrackData],
    whatever its outcome, [state.userPosition] and the distance
    indicator are as they were and no indicator update was made, so the
    indicator still shows the distance to the previous track.  When the
    load completes, the new point list is installed and the next
    position update computes the distance against it and shows it. *)
Theorem load_defers_proximity_to_next_fix
  (json : value) (filename : string) (st : State) (p : position) :
  let st' := fst (loadTrackData json filename st) in
  userPosition st' = userPosition st
  /\ distanceIndicator st' = distanceIndicator st
  /\ (exists calls : list effect,
        trace st' = (trace st ++ calls)%list
        /\ forallb (fun e => negb (is_indicator_update e)) calls = true)
  /\ (snd (loadTrackData json filename st) = Completed ->
      exists (r : rule) (coords : list value),
        resolve json = Ok (r, coords)
        /\ trackData st' = coords
        /\ forall d : float,
             distance_to (fix_lat p) (fix_lon p) st' = Ok d ->
             snd (on_fix p st') = Completed
             /\ distanceIndicator (fst (on_fix p st')) = Some (d, band_of d)).
Proof.
  cbv zeta.
  destruct (load_keeps_proximity json filename st) as (U & I & C).
  repeat split; auto.
  intros Hc.
  destruct (completed_load_installs_track json filename st Hc)
    as (r & c & cs & Hr & Ht).
  exists r, (c :: cs). split; [exact Hr|]. split; [exact Ht|].
  intros d Hd.
  assert (Hne : trackData (fst (loadTrackData json filename st)) <> [])
    by (rewrite Ht; discriminate).
  destruct (fix_updates_indicator p _ Hne Hd) as (A & B & _).
  now split.
Qed.

End ProximityFacts.

(** C9, the claim as stated fails.  A first track at (0, 0) is loaded,
    a fix arrives at (0, 0) and the indicator shows 0 m (on trail);
    then a second track at (0, 180) is loaded.  The load completes and
    the fix is still there, but the indicator still shows the distance
    to the first track, while the distance to the new track is some
    twenty thousand kilometres (off trail). *)
Module SecondLoad.

Import Js Ingest Session IngestFacts.
Open Scope string_scope.

Definition first_track : value := VArr [point 0 0 0].
Definition second_track : value := VArr [point 0 180 0].
Definition here : position := mkFix 0 0 5.

Definition after_first_load : State :=
  fst (loadTrackData first_track "first.json" (initial_state true)).

Definition after_fix : State :=
  fst (onPositionUpdate Engine.sin Engine.cos Engine.atan2
         Engine.ToNumber_other here after_first_load).

Definition after_second_load : State :=
  fst (loadTrackData second_track "second.json" after_fix).

Lemma indicator_is_stale_after_second_load :
  userPosition after_fix = Some here
  /\ distanceIndicator after_fix = Some (0%float, ON_TRAIL)
  /\ snd (loadTrackData second_track "second.json" after_fix) = Completed
  /\ trackData after_second_load = [point 0 180 0]
  /\ userPosition after_second_load = Some here
  /\ distanceIndicator after_second_load = Some (0%float, ON_TRAIL)
  /\ exists d : float,
       distanceToTrail Engine.sin Engine.cos Engine.atan2
         Engine.ToNumber_other (fix_lat here) (fix_lon here) after_second_load
       = Ok d
       /\ band_of d = OFF_TRAIL
       /\ PrimFloat.ltb 20000000 d = true.
Proof.
  repeat split.
  eexists. split; [vm_compute; reflexivity|].
  split; reflexivity.
Qed.

Lemma next_fix_shows_new_distance :
  snd (loadTrackData second_track "second.json" after_fix) = Completed
  /\ snd (onPositionUpdate Engine.sin Engine.cos Engine.atan2
            Engine.ToNumber_other here after_second_load) = Completed
  /\ distanceIndicator
       (fst (onPositionUpdate Engine.sin Engine.cos Engine.atan2
               Engine.ToNumber_other here after_second_load))
     = Some ((6371000 * Math_PI)%float, OFF_TRAIL).
Proof.
  assert (C : snd (loadTrackData second_track "second.json" after_fix)
              = Completed) by (vm_compute; reflexivity).
  split; [exact C|].
  destruct (proj2 (proj2 (proj2
              (load_defers_proximity_to_next_fix
                 Engine.sin Engine.cos Engine.atan2 Engine.ToNumber_other
                 second_track "second.json" after_fix here))) C)
    as (r & coords & _ & _ & H).
  apply (H (6371000 * Math_PI)%float).
  vm_compute. reflexivity.
Defined.

End SecondLoad.

(* ================================================================== *)
(** ** Concrete runs *)

Module Runs.

Import Js Ingest Session IngestFacts.
Open Scope string_scope.

(** Band thresholds: below 50 on trail, below 200 near, else off. *)
Example band_boundaries :
  band_of 49.5 = ON_TRAIL /\ band_of 50 = NEAR_TRAIL
  /\ band_of 199.5 = NEAR_TRAIL /\ band_of 200 = OFF_TRAIL
  /\ band_of nan = OFF_TRAIL.
Proof. repeat split. Qed.

Example trail_name_of_file :
  trail_name "monte_rosa_loop.json" = "monte rosa loop".
Proof. reflexivity. Qed.

(** The GeoJSON-like shape: a missing third component becomes 0. *)
Example coordinates_shape :
  resolve (VObj [("coordinates",
                  VArr [VArr [VNum 32.5; VNum 34.75; VNum 120];
                        VArr [VNum 32.5; VNum 35]])])
  = Ok (RuleCoordinates, [point 34.75 32.5 120; point 35 32.5 0]).
Proof. reflexivity. Qed.

(** An empty nested track is not replaced by the [coordinates] of the
    same document: the first branch was taken. *)
Example empty_nested_track_wins :
  resolve (VObj [("data", VObj [("trackData", VArr [])]);
                 ("coordinates", VArr [VArr [VNum 1; VNum 2; VNum 3]])])
  = Ok (RuleNested, []).
Proof. reflexivity. Qed.

(** Documents on which the probing itself raises. *)
Example probing_raises :
  resolve VNull = Throw TypeError
  /\ resolve (VObj [("coordinates", VNum 5)]) = Throw TypeError
  /\ resolve (VObj [("coordinates", VArr [VNull])]) = Throw TypeError.
Proof. repeat split. Qed.

(** A failed load keeps the track of the previous one. *)
Example failed_load_keeps_previous_track :
  let st := fst (loadTrackData (VArr [point 1 2 3; point 4 5 6])
                   "first.json" (initial_state true)) in
  let st' := fst (loadTrackData (VObj [("data", VObj [("trackData", VArr [])])])
                    "second.json" st) in
  trackData st' = [point 1 2 3; point 4 5 6]
  /\ trackLayer st' = trackLayer st
  /\ elevationChart st' = Some [point 1 2 3; point 4 5 6].
Proof. vm_compute. repeat split. Qed.

(** A position error leaves the last fix and the last distance. *)
Example position_error_keeps_last_result (e : gps_error) (st : State) :
  userPosition (onPositionError e st) = userPosition st
  /\ distanceIndicator (onPositionError e st) = distanceIndicator st
  /\ trackData (onPositionError e st) = trackData st.
Proof. repeat split. Qed.

End Runs.

(* ================================================================== *)
(** * Further properties of the code *)

(* ================================================================== *)
(** ** The sign of binary64 sums *)

Module FloatSign.

Import FloatOrder.
Open Scope float_scope.

Lemma SFleb_ltb_trans (x y z : spec_float) :
  SFleb x y = true -> SFltb y z = true -> SFltb x z = true.
Proof.
  unfold SFleb, SFltb, SFcompare.
  destruct x as [sx|sx| |sx mx ex], y as [sy|sy| |sy my ey],
           z as [sz|sz| |sz mz ez];
    try destruct sx; try destruct sy; try destruct sz; cbn;
    try discriminate; try reflexivity; intros H1 H2;
    split_compare; subst; cbn in *;
    try discriminate; try reflexivity; try lia.
Qed.

(** Shifting right keeps a mantissa non-negative. *)
Lemma shr_1_nonneg (r : shr_record) : (0 <= shr_m r)%Z -> (0 <= shr_m (shr_1 r))%Z.
Proof.
  destruct r as [m rr s]. cbn. destruct m as [|p|p]; cbn; try lia;
    destruct p; cbn; lia.
Qed.

Lemma iter_pos_inv {A} (P : A -> Prop) (f : A -> A) :
  (forall x, P x -> P (f x)) -> forall (n : positive) (x : A), P x -> P (SpecFloat.iter_pos f n x).
Proof.
  intros Hf. induction n; intros x Hx; cbn; auto.
Qed.

Lemma shr_nonneg (r : shr_record) (e n : Z) :
  (0 <= shr_m r)%Z -> (0 <= shr_m (fst (shr r e n)))%Z.
Proof.
  intros H. destruct n; cbn; auto.
  apply (iter_pos_inv (fun r => (0 <= shr_m r)%Z)); auto using shr_1_nonneg.
Qed.

Lemma shr_record_of_loc_m m l : shr_m (shr_record_of_loc m l) = m.
Proof. destruct l as [|[]]; reflexivity. Qed.

Lemma shr_fexp_nonneg prec emax m e l :
  (0 <= m)%Z -> (0 <= shr_m (fst (shr_fexp prec emax m e l)))%Z.
Proof.
  intros H. unfold shr_fexp. apply shr_nonneg. now rewrite shr_record_of_loc_m.
Qed.

Lemma round_nearest_even_nonneg m l : (0 <= m)%Z -> (0 <= round_nearest_even m l)%Z.
Proof. destruct l as [|[]]; cbn; try lia. destruct (Z.even m); lia. Qed.

Definition SFsigned (s : bool) (x : spec_float) : Prop :=
  match x with
  | S754_zero s' | S754_infinity s' | S754_finite s' _ _ => s' = s
  | S754_nan => False
  end.

Lemma binary_round_aux_signed prec emax s m e l :
  (0 <= m)%Z -> SFsigned s (binary_round_aux prec emax s m e l).
Proof.
  intros H. unfold binary_round_aux.
  pose proof (@shr_fexp_nonneg prec emax m e l H) as H1.
  destruct (shr_fexp prec emax m e l) as [mrs' e']. cbn [fst] in H1.
  pose proof (@shr_fexp_nonneg prec emax _ e' loc_Exact
                (@round_nearest_even_nonneg _ (loc_of_shr_record mrs') H1)) as H2.
  destruct (shr_fexp prec emax _ e' loc_Exact) as [mrs'' e'']. cbn [fst] in H2.
  destruct (shr_m mrs''); cbn; try reflexivity; try lia.
  destruct (Z.leb e'' (emax - prec)); reflexivity.
Qed.

Lemma binary_round_signed prec emax s m e :
  SFsigned s (binary_round prec emax s m e).
Proof.
  unfold binary_round. destruct (shl_align m e _) as [mz ez].
  apply binary_round_aux_signed. lia.
Qed.

Definition SFnonneg (x : spec_float) : Prop :=
  match x with
  | S754_zero _ | S754_infinity false | S754_finite false _ _ => True
  | _ => False
  end.

Definition SFpositive (x : spec_float) : Prop :=
  match x with
  | S754_infinity false | S754_finite false _ _ => True
  | _ => False
  end.

Lemma SFadd_nonneg prec emax g d :
  SFnonneg g -> SFpositive d -> SFnonneg (SFadd prec emax g d).
Proof.
  destruct g as [sg|sg| |sg mg eg], d as [sd|sd| |sd md ed]; cbn;
    try tauto; try (destruct sg, sd; cbn; tauto).
  destruct sg, sd; try tauto. intros _ _.
  cbn [cond_Zopp].
  match goal with |- SFnonneg (binary_normalize _ _ ?m _ _) =>
    assert (P : exists p, m = Zpos p) by (cbn; eauto) end.
  destruct P as [p ->]. cbn [binary_normalize].
  pose proof (binary_round_signed prec emax false p (Z.min eg ed)) as S.
  destruct (binary_round prec emax false p (Z.min eg ed)); cbn in *; subst; tauto.
Qed.

Lemma leb_zero_spec x : (0 <=? x) = true <-> SFnonneg (Prim2SF x).
Proof.
  rewrite FloatAxioms.leb_spec. change (Prim2SF 0) with (S754_zero false).
  unfold SFleb. destruct (Prim2SF x) as [s|s| |s m e]; try destruct s; cbn; intuition discriminate.
Qed.

Lemma ltb_zero_spec x : (0 <? x) = true <-> SFpositive (Prim2SF x).
Proof.
  rewrite FloatAxioms.ltb_spec. change (Prim2SF 0) with (S754_zero false).
  unfold SFltb. destruct (Prim2SF x) as [s|s| |s m e]; try destruct s; cbn; intuition discriminate.
Qed.

Lemma add_nonneg g d : (0 <=? g) = true -> (0 <? d) = true -> (0 <=? g + d) = true.
Proof.
  rewrite !leb_zero_spec, ltb_zero_spec, add_spec. apply SFadd_nonneg.
Qed.

Lemma leb_ltb_trans (x y z : float) :
  (x <=? y) = true -> (y <? z) = true -> (x <? z) = true.
Proof.
  rewrite FloatAxioms.leb_spec, !FloatAxioms.ltb_spec. apply SFleb_ltb_trans.
Qed.

Lemma leb_numbers (x y : float) :
  (x <=? y) = true -> is_nan x = false /\ is_nan y = false.
Proof.
  rewrite FloatAxioms.leb_spec. unfold SFleb.
  destruct (SFcompare (Prim2SF x) (Prim2SF y)) as [c|] eqn:E; [|discriminate].
  intros _. apply SFcompare_some in E.
  split; apply is_nan_spec; tauto.
Qed.

End FloatSign.

(* ================================================================== *)
(** ** Elevation statistics of whole tracks *)

Section ElevationFacts.

Import FloatOrder FloatSign.
Open Scope float_scope.

Variable Math_sin : float -> float.
Variable Math_cos : float -> float.
Variable Math_atan2 : float -> float -> float.

Local Abbreviation stats := (updateStats Math_sin Math_cos Math_atan2).
Local Abbreviation segments := (segment_distances Math_sin Math_cos Math_atan2).

(** [if (ele > maxElev) maxElev = ele] *)
Definition upper (maxElev e : float) : float :=
  if gtb e maxElev then e else maxElev.

Lemma elevation_pairs_min (tl : list TrackPoint) (p : TrackPoint) (s : ElevAcc) :
  acc_min (elevation_pairs p tl s) = fold_left lower (map ele tl) (acc_min s).
Proof.
  revert p s; induction tl as [|q tl IH]; intros p s; [reflexivity|].
  cbn [elevation_pairs map fold_left]. now rewrite IH.
Qed.

Lemma elevation_pairs_max (tl : list TrackPoint) (p : TrackPoint) (s : ElevAcc) :
  acc_max (elevation_pairs p tl s) = fold_left upper (map ele tl) (acc_max s).
Proof.
  revert p s; induction tl as [|q tl IH]; intros p s; [reflexivity|].
  cbn [elevation_pairs map fold_left]. now rewrite IH.
Qed.

(** The statistics in terms of the elevation list. *)
Lemma stats_of_elevations (p : TrackPoint) (tl : list TrackPoint) :
  exists s : Stats,
    stats (p :: tl) = Ok s
    /\ minElev s = fold_left lower (map ele (p :: tl)) infinity
    /\ maxElev s = fold_left upper (map ele (p :: tl)) neg_infinity
    /\ elevationGain s
       = sum_from 0 (filter (fun d => gtb d 0) (elevation_deltas (p :: tl))).
Proof.
  rewrite updateStats_cons. eexists. split; [reflexivity|].
  cbn [minElev maxElev elevationGain].
  rewrite elevation_pairs_min, elevation_pairs_max, elevation_pairs_gain.
  repeat split.
Qed.

Lemma upper_fold (es : list float) (m : float) :
  is_nan m = false ->
  is_nan (fold_left upper es m) = false
  /\ (m <=? fold_left upper es m) = true
  /\ (forall e, In e es -> is_nan e = false -> (e <=? fold_left upper es m) = true)
  /\ (fold_left upper es m = m \/ In (fold_left upper es m) es).
Proof.
  revert m; induction es as [|e es IH]; intros m Hm.
  - cbn. repeat split; auto using leb_refl; try (now intros e []).
  - cbn [fold_left]. unfold upper at 2 4 6 8 10. unfold gtb.
    destruct (m <? e) eqn:E.
    + destruct (ltb_numbers E) as [_ He].
      destruct (IH e He) as (N & L & A & M).
      repeat split; auto.
      * eapply leb_trans; [|exact L]. now apply ltb_leb.
      * intros x [<-|Hx] Nx; auto.
      * destruct M as [->|M]; right; [now left | now right].
    + destruct (IH m Hm) as (N & L & A & M).
      repeat split; auto.
      * intros x [<-|Hx] Nx; auto.
        eapply leb_trans; [|exact L].
        now apply not_ltb_leb.
      * destruct M as [M|M]; [now left | right; now right].
Qed.

(** For a track whose elevations are all numbers, [updateStats] reports
    the least and the greatest elevation of the track. *)
Theorem min_max_elevation_of_track (p : TrackPoint) (tl : list TrackPoint) :
  (forall q : TrackPoint, In q (p :: tl) -> is_nan (ele q) = false) ->
  exists s : Stats,
    stats (p :: tl) = Ok s
    /\ In (minElev s) (map ele (p :: tl))
    /\ In (maxElev s) (map ele (p :: tl))
    /\ (forall q : TrackPoint, In q (p :: tl) ->
          (minElev s <=? ele q) = true /\ (ele q <=? maxElev s) = true)
    /\ (minElev s <=? maxElev s) = true.
Proof.
  intros Hnum.
  destruct (stats_of_elevations p tl) as (s & Hs & Hmin & Hmax & _).
  exists s. split; [exact Hs|].
  destruct (lower_fold (map ele (p :: tl)) infinity eq_refl) as (_ & _ & LA & LM).
  destruct (upper_fold (map ele (p :: tl)) neg_infinity eq_refl) as (_ & _ & UA & UM).
  rewrite <- Hmin in LA, LM. rewrite <- Hmax in UA, UM.
  assert (Hp : is_nan (ele p) = false) by (apply Hnum; now left).
  assert (Ip : In (ele p) (map ele (p :: tl))) by (now left).
  assert (Bounds : forall q : TrackPoint, In q (p :: tl) ->
            (minElev s <=? ele q) = true /\ (ele q <=? maxElev s) = true).
  { intros q Hq. split; [apply LA | apply UA]; auto using in_map. }
  split; [|split; [|split; [exact Bounds|]]].
  - destruct LM as [LM|LM]; [|exact LM].
    pose proof (LA _ Ip Hp) as Le. rewrite LM in Le.
    apply infinity_leb in Le. rewrite LM, <- Le. exact Ip.
  - destruct UM as [UM|UM]; [|exact UM].
    pose proof (UA _ Ip Hp) as Le. rewrite UM in Le.
    apply leb_neg_infinity in Le. rewrite UM, <- Le. exact Ip.
  - destruct (Bounds p (or_introl eq_refl)) as [A B].
    eapply leb_trans; eauto.
Qed.

Lemma sum_from_nonneg (xs : list float) (acc : float) :
  (0 <=? acc) = true ->
  (forall x, In x xs -> (0 <? x) = true) ->
  (0 <=? sum_from acc xs) = true.
Proof.
  revert acc; induction xs as [|x xs IH]; intros acc Ha Hx; [exact Ha|].
  cbn [sum_from fold_left]. apply IH.
  - apply add_nonneg; [exact Ha | apply Hx; now left].
  - intros y Hy. apply Hx. now right.
Qed.

(** The elevation gain is a number and never negative, whatever the
    elevations are (NaN included). *)
Theorem elevation_gain_is_never_negative (coords : list TrackPoint) :
  exists s : Stats,
    stats coords = Ok s
    /\ (0 <=? elevationGain s) = true
    /\ is_nan (elevationGain s) = false.
Proof.
  assert (G : exists s : Stats,
             stats coords = Ok s /\ (0 <=? elevationGain s) = true).
  { destruct coords as [|p tl].
    - eexists; split; [apply updateStats_nil | reflexivity].
    - destruct (stats_of_elevations p tl) as (s & Hs & _ & _ & Hg).
      exists s. split; [exact Hs|]. rewrite Hg.
      apply sum_from_nonneg; [reflexivity|].
      intros x Hx. apply filter_In in Hx. exact (proj2 Hx). }
  destruct G as (s & Hs & Hg). exists s. repeat split; auto.
  exact (proj2 (leb_numbers Hg)).
Qed.

End ElevationFacts.

(* ================================================================== *)
(** ** What the statistics and the chart series depend on *)

Section DependenceFacts.

Open Scope float_scope.

Variable Math_sin : float -> float.
Variable Math_cos : float -> float.
Variable Math_atan2 : float -> float -> float.

Local Abbreviation stats := (updateStats Math_sin Math_cos Math_atan2).
Local Abbreviation chart := (drawElevationChart Math_sin Math_cos Math_atan2).
Local Abbreviation segments := (segment_distances Math_sin Math_cos Math_atan2).

(** The horizontal position of a point. *)
Definition horizontal (p : TrackPoint) : float * float := (lat p, lon p).

Lemma stats_closed_form (coords : list TrackPoint) :
  exists s : Stats,
    stats coords = Ok s
    /\ totalDistance s = sum_from 0 (segments coords)
    /\ minElev s = fold_left lower (map ele coords) infinity
    /\ maxElev s = fold_left upper (map ele coords) neg_infinity
    /\ elevationGain s
       = sum_from 0 (filter (fun d => gtb d 0) (elevation_deltas coords)).
Proof.
  destruct coords as [|p tl].
  - eexists. split; [apply updateStats_nil|]. repeat split.
  - destruct (stats_of_elevations Math_sin Math_cos Math_atan2 p tl)
      as (s & Hs & Hmin & Hmax & Hg).
    exists s. repeat split; auto.
    rewrite updateStats_cons in Hs. injection Hs as <-. reflexivity.
Qed.

Lemma segments_depend_on_horizontal (c1 c2 : list TrackPoint) :
  map horizontal c1 = map horizontal c2 -> segments c1 = segments c2.
Proof.
  revert c2; induction c1 as [|p c1 IH]; intros [|p' c2] H;
    try discriminate; [reflexivity|].
  cbn [map] in H. unfold horizontal at 1 3 in H.
  injection H as Hlat Hlon Ht.
  destruct c1 as [|q c1], c2 as [|q' c2]; try discriminate; [reflexivity|].
  rewrite !segments_cons.
  rewrite (IH (q' :: c2) Ht).
  cbn [map] in Ht. unfold horizontal at 1 3 in Ht.
  injection Ht as Hqlat Hqlon _.
  now rewrite Hlat, Hlon, Hqlat, Hqlon.
Qed.

Lemma deltas_depend_on_elevation (c1 c2 : list TrackPoint) :
  map ele c1 = map ele c2 -> elevation_deltas c1 = elevation_deltas c2.
Proof.
  revert c2; induction c1 as [|p c1 IH]; intros [|p' c2] H;
    try discriminate; [reflexivity|].
  injection H as Hp Ht.
  destruct c1 as [|q c1], c2 as [|q' c2]; try discriminate; [reflexivity|].
  change (elevation_deltas (p :: q :: c1))
    with ((ele q - ele p) :: elevation_deltas (q :: c1)).
  change (elevation_deltas (p' :: q' :: c2))
    with ((ele q' - ele p') :: elevation_deltas (q' :: c2)).
  rewrite (IH (q' :: c2) Ht).
  injection Ht as Hq _. now rewrite Hp, Hq.
Qed.

(** The total distance is a function of the latitudes and longitudes
    alone, and gain, minimum and maximum are functions of the
    elevations alone: the distance is horizontal and takes no account
    of the climb. *)
Theorem statistics_separate_distance_and_elevation (c1 c2 : list TrackPoint) :
  exists s1 s2 : Stats,
    stats c1 = Ok s1 /\ stats c2 = Ok s2
    /\ (map horizontal c1 = map horizontal c2 ->
        totalDistance s1 = totalDistance s2)
    /\ (map ele c1 = map ele c2 ->
        elevationGain s1 = elevationGain s2
        /\ minElev s1 = minElev s2
        /\ maxElev s1 = maxElev s2).
Proof.
  destruct (stats_closed_form c1) as (s1 & H1 & D1 & Mn1 & Mx1 & G1).
  destruct (stats_closed_form c2) as (s2 & H2 & D2 & Mn2 & Mx2 & G2).
  exists s1, s2. repeat split; auto.
  - intros H. now rewrite D1, D2, (segments_depend_on_horizontal _ _ H).
  - rewrite G1, G2, (deltas_depend_on_elevation _ _ H). reflexivity.
  - now rewrite Mn1, Mn2, H.
  - now rewrite Mx1, Mx2, H.
Qed.

Lemma segments_of_extension (c1 c2 : list TrackPoint) :
  c1 <> [] ->
  exists rest : list float,
    segments (c1 ++ c2) = segments c1 ++ rest
    /\ List.length rest = List.length c2.
Proof.
  induction c1 as [|p c1 IH]; intros Hne; [congruence|].
  destruct c1 as [|q c1].
  - exists (segments (p :: c2)). split; [reflexivity|].
    apply segments_length.
  - destruct IH as (rest & Hr & Hl); [discriminate|].
    exists rest. split; [|exact Hl].
    change ((p :: q :: c1) ++ c2) with (p :: q :: (c1 ++ c2)).
    rewrite !segments_cons.
    change (q :: c1 ++ c2) with ((q :: c1) ++ c2).
    now rewrite Hr.
Qed.

Lemma running_totals_app (xs ys : list float) (acc : float) :
  running_totals acc (xs ++ ys)
  = running_totals acc xs ++ running_totals (sum_from acc xs) ys.
Proof.
  revert acc; induction xs as [|x xs IH]; intros acc; [reflexivity|].
  cbn [app running_totals]. now rewrite IH.
Qed.

(** Extending a track leaves the chart series of the points already
    there untouched: the series of the longer track starts with the
    series of the shorter one and has one more entry per added
    point. *)
Theorem chart_series_of_extended_track
  (p : TrackPoint) (tl more : list TrackPoint) :
  exists (c c' : ChartAcc) (added : list float),
    chart (p :: tl) = Ok c
    /\ chart ((p :: tl) ++ more) = Ok c'
    /\ distances c' = distances c ++ added
    /\ List.length added = List.length more.
Proof.
  change ((p :: tl) ++ more) with (p :: (tl ++ more)).
  rewrite !chart_range.
  assert (Hne : p :: tl <> []) by discriminate.
  destruct (@segments_of_extension (p :: tl) more Hne) as (rest & Hr & Hl).
  change ((p :: tl) ++ more) with (p :: (tl ++ more)) in Hr.
  rewrite Hr, running_totals_app, map_app.
  do 3 eexists. split; [reflexivity|]. split; [reflexivity|].
  cbn [distances]. split; [reflexivity|].
  now rewrite length_map, running_totals_length.
Qed.

End DependenceFacts.

(* ================================================================== *)
(** ** The nearest distance and its band *)

Section BandFacts.

Import FloatOrder FloatAlgebra FloatSign.
Open Scope float_scope.

Variable Math_sin : float -> float.
Variable Math_cos : float -> float.
Variable Math_atan2 : float -> float -> float.

Local Abbreviation nearest := (getDistanceToTrail Math_sin Math_cos Math_atan2).
Local Abbreviation vertices := (vertex_distances Math_sin Math_cos Math_atan2).

Lemma nearest_as_fold (lat0 lon0 : float) (pts : list TrackPoint) :
  nearest lat0 lon0 pts = fold_left lower (vertices lat0 lon0 pts) infinity.
Proof. unfold getDistanceToTrail. apply nearest_fold. Qed.

(** [getDistanceToTrail] never returns NaN, whatever the coordinates
    of the track and of the fix: a vertex whose distance is NaN is
    passed over. *)
Theorem nearest_distance_is_never_nan (lat0 lon0 : float) (pts : list TrackPoint) :
  is_nan (nearest lat0 lon0 pts) = false
  /\ (nearest lat0 lon0 pts <=? infinity) = true.
Proof.
  rewrite nearest_as_fold.
  destruct (lower_fold (vertices lat0 lon0 pts) infinity eq_refl)
    as (N & L & _ & _).
  now split.
Qed.

(** More vertices never increase the distance to the trail. *)
Theorem more_vertices_never_increase_nearest
  (lat0 lon0 : float) (pts more : list TrackPoint) :
  (nearest lat0 lon0 (pts ++ more) <=? nearest lat0 lon0 pts) = true.
Proof.
  rewrite !nearest_as_fold.
  unfold vertex_distances. rewrite map_app, fold_left_app.
  destruct (lower_fold (vertices lat0 lon0 pts) infinity eq_refl)
    as (N & _ & _ & _).
  destruct (lower_fold (vertices lat0 lon0 more) _ N) as (_ & L & _ & _).
  exact L.
Qed.

Lemma at_least (bound r : float) :
  (bound <=? r) = true -> (r <? bound) = false.
Proof. apply leb_not_ltb. Qed.

(** The band shown by the indicator is decided by the closest vertex:
    on trail as soon as one vertex is less than 50 m away; off trail
    when no vertex is less than 200 m away; near trail when no vertex
    is less than 50 m away but one is less than 200 m away.  A vertex
    at distance NaN counts as away. *)
Theorem band_follows_nearest_vertex (lat0 lon0 : float) (pts : list TrackPoint) :
  ((exists d : float, In d (vertices lat0 lon0 pts) /\ (d <? 50) = true) ->
   band_of (nearest lat0 lon0 pts) = ON_TRAIL)
  /\ ((forall d : float, In d (vertices lat0 lon0 pts) -> (d <? 200) = false) ->
      band_of (nearest lat0 lon0 pts) = OFF_TRAIL)
  /\ ((forall d : float, In d (vertices lat0 lon0 pts) -> (d <? 50) = false) ->
      (exists d : float, In d (vertices lat0 lon0 pts) /\ (d <? 200) = true) ->
      band_of (nearest lat0 lon0 pts) = NEAR_TRAIL).
Proof.
  rewrite nearest_as_fold.
  destruct (lower_fold (vertices lat0 lon0 pts) infinity eq_refl)
    as (N & L & A & M).
  set (r := fold_left lower (vertices lat0 lon0 pts) infinity) in *.
  assert (Below : forall (bound d : float),
            In d (vertices lat0 lon0 pts) -> (d <? bound) = true ->
            (r <? bound) = true).
  { intros bound d Hd Hlt.
    eapply leb_ltb_trans; [|exact Hlt].
    apply A; [exact Hd|]. exact (proj1 (ltb_numbers Hlt)). }
  assert (Above : forall bound : float,
            (infinity <? bound) = false ->
            (forall d : float, In d (vertices lat0 lon0 pts) ->
               (d <? bound) = false) ->
            (r <? bound) = false).
  { intros bound Hinf Hall. destruct M as [M|M]; [now rewrite M|].
    now apply Hall. }
  unfold band_of. split; [|split].
  - intros (d & Hd & Hlt). now rewrite (Below 50 d Hd Hlt).
  - intros Hall.
    assert (H200 : (r <? 200) = false) by (apply Above; auto).
    assert (H50 : (r <? 50) = false).
    { destruct (r <? 50) eqn:E; [|reflexivity].
      assert (C : (r <? 200) = true).
      { eapply leb_ltb_trans with (y := 50); [|reflexivity].
        now apply ltb_leb. }
      congruence. }
    now rewrite H50, H200.
  - intros Hall (d & Hd & Hlt).
    rewrite (Above 50 eq_refl Hall), (Below 200 d Hd Hlt). reflexivity.
Qed.

End BandFacts.

(* ================================================================== *)
(** ** Entries of the stored track that cannot be read *)

Module Readable.

Import Js Ingest Session.
Open Scope string_scope.

(** A value on which a property read throws. *)
Definition unreadable (v : value) : bool :=
  match v with
  | VUndefined | VNull => true
  | _ => false
  end.

Lemma get_unreadable (v : value) (k : string) :
  unreadable v = true -> get v k = Throw TypeError.
Proof. destruct v; cbn; congruence. Qed.

Lemma get_readable (v : value) (k : string) :
  unreadable v = false -> exists x : value, get v k = Ok x.
Proof. destruct v; cbn; try discriminate; eauto. Qed.

Lemma index_readable (v : value) (i : nat) :
  unreadable v = false -> exists x : value, index v i = Ok x.
Proof. destruct v; cbn; try discriminate; eauto. Qed.

Lemma to_latLng_readable (v : value) :
  unreadable v = false -> exists l : latLng, to_latLng v = Ok l.
Proof.
  intros H. unfold to_latLng.
  destruct (get_readable v "lat" H) as (la & ->).
  destruct (get_readable v "lon" H) as (lo & ->).
  cbn. eauto.
Qed.

(** [coords.map(c => [c.lat, c.lon])] throws exactly on a list with
    an unreadable entry. *)
Lemma latLngs_of_track (coords : list value) :
  if existsb unreadable coords
  then mapM to_latLng coords = Throw TypeError
  else exists ls : list latLng,
         mapM to_latLng coords = Ok ls /\ List.length ls = List.length coords.
Proof.
  induction coords as [|c cs IH]; cbn [existsb mapM].
  - now (exists []).
  - destruct (unreadable c) eqn:U; cbn [orb].
    + unfold to_latLng. now rewrite (get_unreadable c "lat" U).
    + destruct (to_latLng_readable c U) as (l & ->). cbn [bind].
      destruct (existsb unreadable cs).
      * now rewrite IH.
      * destruct IH as (ls & -> & L). cbn. exists (l :: ls).
        split; [reflexivity|]. cbn. now rewrite L.
Qed.

(** [drawTrack] on a non-empty list: it throws at its first statement
    when an entry is unreadable, with nothing drawn, and completes
    otherwise. *)
Lemma drawTrack_outcome (c : value) (cs : list value) (st : State) :
  if existsb unreadable (c :: cs)
  then drawTrack (c :: cs) st = (st, Throw TypeError)
  else exists (l : latLng) (ls : list latLng),
         mapM to_latLng (c :: cs) = Ok (l :: ls)
         /\ drawTrack (c :: cs) st
            = (set_layers (Some (mkLayer (l :: ls) true))
                 (Some (mkLayer l true))
                 (Some (mkLayer (last (l :: ls) l) true)) st,
               Ok tt).
Proof.
  pose proof (latLngs_of_track (c :: cs)) as H. unfold drawTrack.
  destruct (existsb unreadable (c :: cs)).
  - now rewrite H.
  - destruct H as ([|l ls] & E & L); [discriminate|].
    exists l, ls. split; [exact E|]. now rewrite E.
Qed.

Section Numeric.

Variable ToNumber_other : value -> float.

Lemma numeric_point_readable (v : value) :
  unreadable v = false ->
  exists p : TrackPoint, numeric_point ToNumber_other v = Ok p.
Proof.
  intros H. unfold numeric_point.
  destruct (get_readable v "lat" H) as (la & ->).
  destruct (get_readable v "lon" H) as (lo & ->).
  destruct (get_readable v "ele" H) as (el & ->).
  cbn. eauto.
Qed.

(** The reads of [coord.lat] in the proximity loop. *)
Lemma numeric_points_of_track (coords : list value) :
  if existsb unreadable coords
  then mapM (numeric_point ToNumber_other) coords = Throw TypeError
  else exists pts : list TrackPoint,
         mapM (numeric_point ToNumber_other) coords = Ok pts
         /\ List.length pts = List.length coords.
Proof.
  induction coords as [|c cs IH]; cbn [existsb mapM].
  - now (exists []).
  - destruct (unreadable c) eqn:U; cbn [orb].
    + unfold numeric_point. now rewrite (get_unreadable c "lat" U).
    + destruct (numeric_point_readable c U) as (p & ->). cbn [bind].
      destruct (existsb unreadable cs).
      * now rewrite IH.
      * destruct IH as (ps & -> & L). cbn. exists (p :: ps).
        split; [reflexivity|]. cbn. now rewrite L.
Qed.

End Numeric.

End Readable.

(* ================================================================== *)
(** ** The four ways a load can end *)

Module LoadCases.

Import Js Ingest Session Readable.
Open Scope string_scope.

(** The session when [drawTrack] is entered (line 230). *)
Definition before_drawing (coords : list value) (filename : string)
  (st : State) : State :=
  emit (DrawTrack coords)
    (set_layers (removeLayer (trackLayer st)) (removeLayer (startMarker st))
       (removeLayer (endMarker st))
       (emit (SetTrailName (trail_name filename)) (set_trackData coords st))).

(** The session when [startGPSTracking] is entered (line 243). *)
Definition before_tracking (coords : list value) (l : latLng)
  (ls : list latLng) (filename : string) (st : State) : State :=
  emit (ShowLoading false)
    (emit HideDropZone
       (set_elevationChart (Some coords)
          (emit (DrawElevationChart coords)
             (emit (UpdateStats coords)
                (set_layers (Some (mkLayer (l :: ls) true))
                   (Some (mkLayer l true))
                   (Some (mkLayer (last (l :: ls) l) true))
                   (before_drawing coords filename st)))))).

Unset Implicit Arguments.

Inductive load_case (json : value) (filename : string) (st : State) : Prop :=
  | CascadeRaised (e : exn)
      (R : resolve json = Throw e)
      (L : loadTrackData json filename st = (st, Raised e))
  | NothingFound (r : rule)
      (R : resolve json = Ok (r, []))
      (L : loadTrackData json filename st
           = (emit (ShowLoading false) (emit (Alert CouldNotFindTrackData) st),
              NoTrackDataFound))
  | DrawingRaised (r : rule) (c : value) (cs : list value)
      (R : resolve json = Ok (r, c :: cs))
      (U : existsb unreadable (c :: cs) = true)
      (L : loadTrackData json filename st
           = (before_drawing (c :: cs) filename st, Raised TypeError))
  | Drawn (r : rule) (c : value) (cs : list value) (l : latLng)
      (ls : list latLng)
      (R : resolve json = Ok (r, c :: cs))
      (U : existsb unreadable (c :: cs) = false)
      (M : mapM to_latLng (c :: cs) = Ok (l :: ls))
      (L : loadTrackData json filename st
           = (startGPSTracking (before_tracking (c :: cs) l ls filename st),
              Completed)).

Set Implicit Arguments.

Lemma load_cases (json : value) (filename : string) (st : State) :
  load_case json filename st.
Proof.
  destruct (resolve json) as [[r [|c cs]]|e] eqn:R.
  - apply NothingFound with (r := r); [exact R|].
    unfold loadTrackData. now rewrite R.
  - pose proof (drawTrack_outcome c cs (before_drawing (c :: cs) filename st))
      as D.
    destruct (existsb unreadable (c :: cs)) eqn:U.
    + apply DrawingRaised with (r := r) (c := c) (cs := cs); [exact R|exact U|].
      unfold loadTrackData. rewrite R. cbv zeta.
      match goal with
      | |- context [drawTrack (c :: cs) ?s] =>
          change s with (before_drawing (c :: cs) filename st)
      end.
      now rewrite D.
    + destruct D as (l & ls & M & D).
      apply Drawn with (r := r) (c := c) (cs := cs) (l := l) (ls := ls);
        [exact R|exact U|exact M|].
      unfold loadTrackData. rewrite R. cbv zeta.
      match goal with
      | |- context [drawTrack (c :: cs) ?s] =>
          change s with (before_drawing (c :: cs) filename st)
      end.
      now rewrite D.
  - apply CascadeRaised with (e := e); [exact R|].
    unfold loadTrackData. now rewrite R.
Qed.

End LoadCases.

(* ================================================================== *)
(** ** Position updates against the stored track *)

Section TrackingFacts.

Import Js Ingest Session Readable LoadCases FloatOrder.
Open Scope string_scope.

Variable Math_sin : float -> float.
Variable Math_cos : float -> float.
Variable Math_atan2 : float -> float -> float.
Variable ToNumber_other : value -> float.

Local Abbreviation on_fix :=
  (onPositionUpdate Math_sin Math_cos Math_atan2 ToNumber_other).
Local Abbreviation nearest_to :=
  (getDistanceToTrail Math_sin Math_cos Math_atan2).

(** The session once the marker is placed (line 484). *)
Definition located (p : position) (st : State) : State :=
  emit (UpdateGPSStatus (GpsActive (fix_accuracy p))) (set_user p st).

Unset Implicit Arguments.

Inductive fix_case (p : position) (st : State) : Prop :=
  | NoTrack
      (T : trackData st = [])
      (F : on_fix p st = (located p st, Completed))
  | ReadRaised
      (U : existsb unreadable (trackData st) = true)
      (F : on_fix p st = (located p st, Raised TypeError))
  | Measured (pts : list TrackPoint)
      (T : trackData st <> [])
      (U : existsb unreadable (trackData st) = false)
      (N : mapM (numeric_point ToNumber_other) (trackData st) = Ok pts)
      (F : on_fix p st
           = (updateDistanceIndicator
                (nearest_to (fix_lat p) (fix_lon p) pts) (located p st),
              Completed)).

Set Implicit Arguments.

Lemma fix_cases (p : position) (st : State) : fix_case p st.
Proof.
  pose proof (numeric_points_of_track ToNumber_other (trackData st)) as H.
  destruct (trackData st) as [|c cs] eqn:T.
  - apply NoTrack; [exact T|].
    unfold onPositionUpdate. cbn [trackData emit set_user]. now rewrite T.
  - destruct (existsb unreadable (c :: cs)) eqn:U.
    + apply ReadRaised; [now rewrite T|].
      unfold onPositionUpdate, distanceToTrail.
      cbn [trackData emit set_user]. now rewrite T, H.
    + destruct H as (pts & N & _).
      apply Measured with (pts := pts);
        [now rewrite T|now rewrite T|now rewrite T|].
      unfold onPositionUpdate, distanceToTrail.
      cbn [trackData emit set_user]. now rewrite T, N.
Qed.


(** What a position update keeps, and what it reads. *)
Lemma fix_keeps_track (p : position) (st : State) :
  trackData (fst (on_fix p st)) = trackData st
  /\ watchId (fst (on_fix p st)) = watchId st
  /\ userPosition (fst (on_fix p st)) = Some p
  /\ userMarker (fst (on_fix p st)) = Some (VNum (fix_lat p), VNum (fix_lon p))
  /\ (distanceIndicator (fst (on_fix p st)) = distanceIndicator st
      \/ (snd (on_fix p st) = Completed /\ trackData st <> [])).
Proof.
  destruct (fix_cases p st) as [T F|U F|pts T U N F]; rewrite F;
    cbn [fst snd]; repeat split; auto.
Qed.

Lemma fix_reads_track (p : position) (s1 s2 : State) :
  trackData s1 = trackData s2 ->
  snd (on_fix p s1) = snd (on_fix p s2)
  /\ (distanceIndicator s1 = distanceIndicator s2
      \/ (snd (on_fix p s2) = Completed /\ trackData s2 <> []) ->
      distanceIndicator (fst (on_fix p s1))
      = distanceIndicator (fst (on_fix p s2))).
Proof.
  intros E.
  destruct (fix_cases p s1) as [T F|U F|pts T U N F]; rewrite F;
    destruct (fix_cases p s2) as [T' F'|U' F'|pts' T' U' N' F'];
    rewrite F'; cbn [fst snd]; rewrite E in *.
  - split; [reflexivity|]. intros [H|[_ H]]; [exact H|contradiction].
  - rewrite T in U'. discriminate.
  - contradiction.
  - rewrite T' in U. discriminate.
  - split; [reflexivity|]. intros [H|[H _]]; [exact H|discriminate].
  - congruence.
  - contradiction.
  - congruence.
  - assert (pts' = pts) by congruence. subst pts'.
    split; reflexivity.
Qed.

(** The display after a position update does not depend on earlier
    position updates: position, marker, indicator and outcome after
    the fixes [p1], [p2] are those after [p2] alone. *)
Theorem later_fix_supersedes_earlier (p1 p2 : position) (st : State) :
  let twice := on_fix p2 (fst (on_fix p1 st)) in
  let once := on_fix p2 st in
  snd twice = snd once
  /\ userPosition (fst twice) = userPosition (fst once)
  /\ userMarker (fst twice) = userMarker (fst once)
  /\ distanceIndicator (fst twice) = distanceIndicator (fst once)
  /\ trackData (fst twice) = trackData st
  /\ watchId (fst twice) = watchId st.
Proof.
  cbv zeta.
  destruct (fix_keeps_track p1 st) as (T1 & W1 & _ & _ & I1).
  destruct (fix_keeps_track p2 (fst (on_fix p1 st))) as (T2 & W2 & P2 & M2 & _).
  destruct (fix_keeps_track p2 st) as (_ & _ & P & M & _).
  destruct (fix_reads_track p2 (fst (on_fix p1 st)) st T1) as (O & I).
  rewrite T2, W2, P2, M2, P, M, T1, W1.
  repeat split; [exact O|].
  apply I. destruct I1 as [I1|[Hc Hne]]; [now left|right].
  split; [|exact Hne].
  destruct (fix_cases p1 st) as [T F|U F|pts T U N F]; rewrite F in Hc;
    cbn [snd] in Hc; try discriminate; try contradiction.
  destruct (fix_cases p2 st) as [T' F'|U' F'|pts' T' U' N' F'];
    rewrite F'; cbn [snd]; try reflexivity; congruence.
Qed.


(** A resolved point list with a [null] or [undefined] entry is
    rejected while being drawn, after it has replaced the stored
    track: the load raises (the reader reports a parse error), yet
    [state.trackData] holds the new list, the old layers are off the
    map, chart and watch are as before, and from then on every
    position update raises without touching the indicator. *)
Theorem rejected_track_stays_installed
  (json : value) (filename : string) (st : State) (r : rule)
  (coords : list value) (p : position) :
  resolve json = Ok (r, coords) ->
  existsb unreadable coords = true ->
  let st' := fst (loadTrackData json filename st) in
  snd (loadTrackData json filename st) = Raised TypeError
  /\ reader_onload (Some json) filename st
     = (emit (ShowLoading false) (emit (Alert ErrorParsingJSON) st'), Completed)
  /\ trackData st' = coords
  /\ trackLayer st' = removeLayer (trackLayer st)
  /\ startMarker st' = removeLayer (startMarker st)
  /\ endMarker st' = removeLayer (endMarker st)
  /\ elevationChart st' = elevationChart st
  /\ watchId st' = watchId st
  /\ trace st'
     = (trace st ++ [SetTrailName (trail_name filename); DrawTrack coords])%list
  /\ snd (on_fix p st') = Raised TypeError
  /\ distanceIndicator (fst (on_fix p st')) = distanceIndicator st.
Proof.
  intros R U. cbv zeta. unfold reader_onload.
  destruct (load_cases json filename st)
    as [e R' L|r' R' L|r' c cs R' U' L|r' c cs l ls R' U' M L];
    rewrite L; cbn [fst snd]; rewrite R in R'.
  - discriminate.
  - injection R' as _ ->. discriminate.
  - injection R' as _ ->.
    assert (T : trackData (before_drawing (c :: cs) filename st) = c :: cs)
      by reflexivity.
    destruct (fix_cases p (before_drawing (c :: cs) filename st))
      as [T' F|U'' F|pts T' U'' N F]; rewrite F; cbn [fst snd].
    + congruence.
    + repeat split. cbn. now rewrite <- app_assoc.
    + rewrite T in U''. congruence.
  - injection R' as _ ->. congruence.
Qed.

End TrackingFacts.


Lemma rejected_track_witness :
  Ingest.resolve (VArr [IngestFacts.point 0 0 0; VNull])
  = Ok (RuleBareArray, [IngestFacts.point 0 0 0; VNull])
  /\ Readable.unreadable VNull = true
  /\ trackData (fst (loadTrackData (VArr [IngestFacts.point 0 0 0; VNull])
                       "gap.json" (initial_state true)))
     = [IngestFacts.point 0 0 0; VNull].
Proof.
  split; [reflexivity|]. split; [reflexivity|].
  exact (proj1 (proj2 (proj2
    (@rejected_track_stays_installed
       Engine.sin Engine.cos Engine.atan2 Engine.ToNumber_other
       (VArr [IngestFacts.point 0 0 0; VNull]) "gap.json" (initial_state true)
       RuleBareArray [IngestFacts.point 0 0 0; VNull] (mkFix 0 0 5)
       eq_refl eq_refl)))).
Defined.

Lemma min_max_elevation_witness :
  (forall q : TrackPoint,
     In q [mkPoint 0 0 100; mkPoint 0 0 250; mkPoint 0 0 80] ->
     is_nan (ele q) = false)
  /\ exists s : Stats,
       updateStats Engine.sin Engine.cos Engine.atan2
         [mkPoint 0 0 100; mkPoint 0 0 250; mkPoint 0 0 80] = Ok s
       /\ minElev s = 80%float /\ maxElev s = 250%float.
Proof.
  assert (H : forall q : TrackPoint,
            In q [mkPoint 0 0 100; mkPoint 0 0 250; mkPoint 0 0 80] ->
            is_nan (ele q) = false)
    by (intros q [<-|[<-|[<-|[]]]]; reflexivity).
  split; [exact H|].
  destruct (@min_max_elevation_of_track Engine.sin Engine.cos Engine.atan2
              (mkPoint 0 0 100) [mkPoint 0 0 250; mkPoint 0 0 80] H)
    as (s & Hs & _).
  exists s. split; [exact Hs|].
  vm_compute in Hs. injection Hs as <-. split; reflexivity.
Defined.

(* ================================================================== *)
(** ** What a load shows, and which documents it rejects *)

Module DocumentFacts.

Import Js Ingest Session Readable LoadCases.
Open Scope string_scope.

Lemma tracking_keeps_display (st : State) :
  trackData (startGPSTracking st) = trackData st
  /\ trackLayer (startGPSTracking st) = trackLayer st
  /\ startMarker (startGPSTracking st) = startMarker st
  /\ endMarker (startGPSTracking st) = endMarker st
  /\ elevationChart (startGPSTracking st) = elevationChart st
  /\ watchId (startGPSTracking st)
     = (if geolocation st then Some (next_watch st) else watchId st).
Proof. unfold startGPSTracking. destruct (geolocation st); repeat split. Qed.

(** After a completed load the stored track, the polyline, the two
    markers and the elevation chart all show the point list the
    cascade resolved, whatever was shown before; the polyline and the
    markers are on the map, and a position watch is registered when the
    host has geolocation. *)
Theorem completed_load_shows_one_track
  (json : value) (filename : string) (st : State) :
  snd (loadTrackData json filename st) = Completed ->
  let st' := fst (loadTrackData json filename st) in
  exists (r : rule) (l : latLng) (ls : list latLng),
    resolve json = Ok (r, trackData st')
    /\ mapM to_latLng (trackData st') = Ok (l :: ls)
    /\ trackLayer st' = Some (mkLayer (l :: ls) true)
    /\ startMarker st' = Some (mkLayer l true)
    /\ endMarker st' = Some (mkLayer (last (l :: ls) l) true)
    /\ elevationChart st' = Some (trackData st')
    /\ watchId st'
       = (if geolocation st then Some (next_watch st) else watchId st).
Proof.
  destruct (load_cases json filename st)
    as [e R L|r R L|r c cs R U L|r c cs l ls R U M L];
    rewrite L; cbn [fst snd]; try discriminate.
  intros _.
  destruct (tracking_keeps_display (before_tracking (c :: cs) l ls filename st))
    as (T & K & S & E & C & W).
  rewrite T, K, S, E, C, W.
  exists r, l, ls. cbn. repeat split; assumption.
Qed.

(** How a load ends depends on the document alone, not on the file
    name or on the session it is loaded into. *)
Theorem load_outcome_depends_on_document_only
  (json : value) (f1 f2 : string) (s1 s2 : State) :
  snd (loadTrackData json f1 s1) = snd (loadTrackData json f2 s2)
  /\ (snd (loadTrackData json f1 s1) = Completed ->
      trackData (fst (loadTrackData json f1 s1))
      = trackData (fst (loadTrackData json f2 s2))
      /\ trackLayer (fst (loadTrackData json f1 s1))
         = trackLayer (fst (loadTrackData json f2 s2))
      /\ startMarker (fst (loadTrackData json f1 s1))
         = startMarker (fst (loadTrackData json f2 s2))
      /\ endMarker (fst (loadTrackData json f1 s1))
         = endMarker (fst (loadTrackData json f2 s2))
      /\ elevationChart (fst (loadTrackData json f1 s1))
         = elevationChart (fst (loadTrackData json f2 s2))).
Proof.
  destruct (load_cases json f1 s1)
    as [e R L|r R L|r c cs R U L|r c cs l ls R U M L];
    destruct (load_cases json f2 s2)
      as [e' R' L'|r' R' L'|r' c' cs' R' U' L'|r' c' cs' l' ls' R' U' M' L'];
    rewrite L, L'; cbn [fst snd]; rewrite R in R';
    try discriminate;
    try (split; [congruence|discriminate]);
    try (injection R' as _ <- <-; congruence).
  injection R' as _ <- <-.
  assert (l' = l /\ ls' = ls) as [-> ->] by (split; congruence).
  split; [reflexivity|]. intros _.
  destruct (tracking_keeps_display (before_tracking (c :: cs) l ls f1 s1))
    as (T & K & S & E & C & _).
  destruct (tracking_keeps_display (before_tracking (c :: cs) l ls f2 s2))
    as (T' & K' & S' & E' & C' & _).
  rewrite T, K, S, E, C, T', K', S', E', C'. repeat split.
Qed.

(** [c => ({ lon: c[0], lat: c[1], ele: c[2] || 0 })] on one entry. *)
Lemma triple_of_entry (c : value) :
  if unreadable c
  then triple_to_point c = Throw TypeError
  else exists c0 c1 c2 : value,
         index c 0 = Ok c0 /\ index c 1 = Ok c1 /\ index c 2 = Ok c2
         /\ triple_to_point c
            = Ok (VObj [("lon", c0); ("lat", c1);
                        ("ele", if truthy c2 then c2 else VNum 0%float)]).
Proof.
  destruct (unreadable c) eqn:U.
  - destruct c; cbn in U; try discriminate; reflexivity.
  - unfold triple_to_point, or_else.
    destruct (index_readable c 0 U) as (c0 & E0).
    destruct (index_readable c 1 U) as (c1 & E1).
    destruct (index_readable c 2 U) as (c2 & E2).
    exists c0, c1, c2. rewrite E0, E1, E2. cbn. repeat split.
Qed.

(** The points the [coordinates] rule builds. *)
Definition built_from (c pt : value) : Prop :=
  get pt "lon" = index c 0
  /\ get pt "lat" = index c 1
  /\ exists c2 : value,
       index c 2 = Ok c2
       /\ get pt "ele" = Ok (if truthy c2 then c2 else VNum 0%float)
  /\ unreadable pt = false.

Lemma triples_of_entries (cs : list value) :
  if existsb unreadable cs
  then mapM triple_to_point cs = Throw TypeError
  else exists pts : list value,
         mapM triple_to_point cs = Ok pts
         /\ Forall2 built_from cs pts.
Proof.
  induction cs as [|c cs IH]; cbn [existsb mapM].
  - exists []. split; [reflexivity|constructor].
  - pose proof (triple_of_entry c) as H.
    destruct (unreadable c); cbn [orb].
    + now rewrite H.
    + destruct H as (c0 & c1 & c2 & E0 & E1 & E2 & ->). cbn [bind].
      destruct (existsb unreadable cs).
      * now rewrite IH.
      * destruct IH as (pts & -> & F). cbn [bind].
        eexists. split; [reflexivity|].
        constructor; [|exact F].
        unfold built_from. cbn. rewrite E0, E1.
        repeat split. exists c2. repeat split. exact E2.
Qed.


Lemma has_nested_raises (json : value) :
  (exists e : exn, has_nested json = Throw e) <-> unreadable json = true.
Proof.
  unfold has_nested. split.
  - intros (e & H). destruct json; cbn in *; try reflexivity;
      try discriminate.
    destruct (truthy (lookup "data" fields)) eqn:T; [|discriminate].
    destruct (lookup "data" fields); cbn in *; discriminate.
  - intros U. exists TypeError. now rewrite (get_unreadable json "data" U).
Qed.

Lemma from_nested_returns (json : value) :
  has_nested json = Ok true ->
  exists coords : list value, from_nested json = Ok coords.
Proof.
  unfold has_nested, from_nested.
  destruct (get json "data") as [data|e]; cbn [bind]; [|discriminate].
  destruct (truthy data) eqn:T; [|discriminate].
  destruct data; cbn in T; try discriminate; cbn [get bind]; intros _;
    try (now (exists []));
    repeat match goal with
      | |- context [match ?x with _ => _ end] => destruct x
      end; eauto.
Qed.

(** The format cascade raises exactly on the document [null], and on
    a document that is neither nested nor an array and whose truthy
    [coordinates] field is not an array or is an array with a [null]
    entry. *)
Theorem cascade_raises_exactly (json : value) :
  (exists e : exn, resolve json = Throw e)
  <-> unreadable json = true
      \/ (has_nested json = Ok false
          /\ isArray json = false
          /\ exists c : value,
               get json "coordinates" = Ok c
               /\ truthy c = true
               /\ match c with
                  | VArr cs => existsb unreadable cs = true
                  | _ => True
                  end).
Proof.
  unfold resolve. split.
  - intros (e & H).
    destruct (has_nested json) as [[|]|e'] eqn:N; cbn [bind] in H.
    + destruct (from_nested_returns json N) as (coords & F).
      rewrite F in H. discriminate.
    + right. split; [reflexivity|].
      destruct json; try discriminate; cbn [isArray get bind] in *;
        try discriminate.
      split; [reflexivity|].
      exists (lookup "coordinates" fields). split; [reflexivity|].
      destruct (truthy (lookup "coordinates" fields)) eqn:T; [|discriminate].
      split; [reflexivity|].
      destruct (lookup "coordinates" fields); try exact I.
      cbn [from_coordinates] in H.
      pose proof (triples_of_entries items) as M.
      destruct (existsb unreadable items); [reflexivity|].
      destruct M as (pts & M & _). rewrite M in H. discriminate.
    + left. apply has_nested_raises. eauto.
  - intros [U|(N & A & c & G & T & M)].
    + exists TypeError.
      destruct (proj2 (has_nested_raises json) U) as ([] & ->). reflexivity.
    + exists TypeError. rewrite N. cbn [bind].
      destruct json; try discriminate; cbn [get bind] in *;
        injection G as G; subst c; try (cbn in T; discriminate).
      rewrite T.
      destruct (lookup "coordinates" fields); try (cbn in T; discriminate);
        try reflexivity.
      cbn [from_coordinates].
      pose proof (triples_of_entries items) as M'. rewrite M in M'.
      now rewrite M'.
Qed.


Definition lonlat_document : value :=
  VObj [("coordinates", VArr [VArr [VNum 7; VNum 46; VNum 1200];
                              VArr [VNum 8; VNum 47]])].

Lemma completed_load_shows_one_track_witness :
  snd (loadTrackData lonlat_document "tour.json" (initial_state true)) = Completed
  /\ elevationChart (fst (loadTrackData lonlat_document "tour.json"
                            (initial_state true)))
     = Some [VObj [("lon", VNum 7); ("lat", VNum 46); ("ele", VNum 1200)];
             VObj [("lon", VNum 8); ("lat", VNum 47); ("ele", VNum 0)]].
Proof.
  split; [reflexivity|].
  destruct (completed_load_shows_one_track lonlat_document "tour.json"
              (initial_state true) eq_refl)
    as (r & l & ls & _ & _ & _ & _ & _ & C & _).
  rewrite C. reflexivity.
Defined.


End DocumentFacts.

(* ================================================================== *)
(** ** File handling *)

Module FileFacts.

Import Js Ingest Session Readable LoadCases Files.
Open Scope nat_scope.
Open Scope string_scope.

(** Whether the loading overlay is visible after a sequence of calls:
    [classList.toggle('visible', show)] sets it to [show]. *)
Fixpoint loading_visible (visible : bool) (calls : list effect) : bool :=
  match calls with
  | [] => visible
  | ShowLoading show :: rest => loading_visible show rest
  | _ :: rest => loading_visible visible rest
  end.

(** The number of alerts among a sequence of calls. *)
Fixpoint alerts (calls : list effect) : nat :=
  match calls with
  | [] => 0
  | Alert _ :: rest => S (alerts rest)
  | _ :: rest => alerts rest
  end.

Lemma loading_visible_app (v : bool) (xs ys : list effect) :
  loading_visible v (xs ++ ys) = loading_visible (loading_visible v xs) ys.
Proof.
  revert v; induction xs as [|[] xs IH]; intros v; cbn; auto.
Qed.

Lemma tracking_trace (st : State) :
  exists status : gps_status,
    trace (startGPSTracking st) = (trace st ++ [UpdateGPSStatus status])%list.
Proof. unfold startGPSTracking. destruct (geolocation st); cbn; eauto. Qed.

(** The calls a reader callback adds to the trace. *)
Lemma onload_calls (parsed : option value) (name : string) (st : State) :
  exists calls : list effect,
    trace (fst (reader_onload parsed name st)) = (trace st ++ calls)%list
    /\ loading_visible true calls = false
    /\ loading_visible false calls = false
    /\ (snd (reader_onload parsed name st) = Completed
        \/ snd (reader_onload parsed name st) = NoTrackDataFound)
    /\ alerts calls
       = match parsed with
         | Some json =>
             match snd (loadTrackData json name st) with
             | Completed => 0
             | _ => 1
             end
         | None => 1
         end.
Proof.
  unfold reader_onload. destruct parsed as [json|].
  - destruct (load_cases json name st)
      as [e R L|r R L|r c cs R U L|r c cs l ls R U M L];
      rewrite L; cbn [fst snd].
    + exists [Alert ErrorParsingJSON; ShowLoading false].
      cbn. rewrite <- app_assoc. repeat split; auto.
    + exists [Alert CouldNotFindTrackData; ShowLoading false].
      cbn. rewrite <- app_assoc. repeat split; auto.
    + exists [SetTrailName (trail_name name); DrawTrack (c :: cs);
              Alert ErrorParsingJSON; ShowLoading false].
      cbn. rewrite <- !app_assoc. repeat split; auto.
    + destruct (tracking_trace (before_tracking (c :: cs) l ls name st))
        as (status & T).
      exists [SetTrailName (trail_name name); DrawTrack (c :: cs);
              UpdateStats (c :: cs); DrawElevationChart (c :: cs);
              HideDropZone; ShowLoading false; UpdateGPSStatus status].
      rewrite T. cbn. rewrite <- !app_assoc. repeat split; auto.
  - exists [Alert ErrorParsingJSON; ShowLoading false].
    cbn. rewrite <- app_assoc. repeat split; auto.
Qed.

(** Whatever the file holds, the reader's load callback lets no
    exception escape, leaves the loading overlay hidden, and shows
    exactly one alert unless the track was loaded to completion, in
    which case it shows none. *)
Theorem reader_callback_hides_overlay_and_reports_failure
  (parsed : option value) (name : string) (st : State) (visible : bool) :
  (snd (reader_onload parsed name st) = Completed
   \/ snd (reader_onload parsed name st) = NoTrackDataFound)
  /\ loading_visible visible (trace (fst (reader_onload parsed name st))) = false
  /\ loading_visible visible (trace (reader_onerror st)) = false
  /\ exists calls : list effect,
       trace (fst (reader_onload parsed name st)) = (trace st ++ calls)%list
       /\ alerts calls
          = match parsed with
            | Some json =>
                match snd (loadTrackData json name st) with
                | Completed => 0
                | _ => 1
                end
            | None => 1
            end.
Proof.
  destruct (onload_calls parsed name st) as (calls & T & V1 & V0 & O & A).
  split; [exact O|]. split; [|split].
  - rewrite T, loading_visible_app.
    now destruct (loading_visible visible (trace st)).
  - unfold reader_onerror. cbn. now rewrite loading_visible_app.
  - exists calls. now split.
Qed.

Lemma ends_with_length (suffix s : string) :
  ends_with suffix s = true -> String.length suffix <= String.length s.
Proof.
  induction s as [|c s IH]; cbn [ends_with].
  - rewrite orb_false_r. intros H. apply String.eqb_eq in H. now subst.
  - intros H. apply orb_true_iff in H. destruct H as [H|H].
    + apply String.eqb_eq in H. now subst.
    + specialize (IH H). cbn. lia.
Qed.

Lemma ends_with_iff (suffix s : string) :
  ends_with suffix s = true <-> exists base : string, s = base ++ suffix.
Proof.
  split.
  - induction s as [|c s IH]; cbn [ends_with]; intros H;
      apply orb_true_iff in H; destruct H as [H|H]; try discriminate.
    + apply String.eqb_eq in H. now (exists EmptyString).
    + apply String.eqb_eq in H. now (exists EmptyString).
    + destruct (IH H) as (base & ->). now (exists (String c base)).
  - intros (base & ->). induction base as [|c base IH].
    + destruct suffix; cbn [append ends_with]; now rewrite String.eqb_refl.
    + cbn [append ends_with]. rewrite IH. apply orb_true_r.
Qed.

(** A file is read exactly when its name is some text followed by
    [.json]: then the loading overlay is shown and the read started;
    any other name gets the alert and leaves the session as it was;
    an empty file list does nothing. *)
Theorem only_json_names_are_read (name : string) (rest : list string)
  (st : State) :
  (handleFiles (name :: rest) st = (emit (ShowLoading true) st, Some Reading)
   <-> exists base : string, name = base ++ ".json")
  /\ (handleFiles (name :: rest) st = (st, Some PleaseSelectJSON)
      <-> ends_with ".json" name = false)
  /\ handleFiles [] st = (st, None).
Proof.
  cbn [handleFiles]. unfold processFile.
  rewrite <- ends_with_iff.
  destruct (ends_with ".json" name); cbn [negb];
    repeat split; try discriminate; auto.
Qed.

(** [s.includes(pat)] *)
Fixpoint occurs (pat s : string) : bool :=
  String.prefix pat s
  || match s with
     | EmptyString => false
     | String _ s' => occurs pat s'
     end.

Fixpoint has_char (c : ascii) (s : string) : bool :=
  match s with
  | EmptyString => false
  | String c' s' => Ascii.eqb c c' || has_char c s'
  end.

Lemma substring_length (s : string) (n m : nat) :
  n + m <= String.length s -> String.length (substring n m s) = m.
Proof.
  revert n m; induction s as [|c s IH]; intros [|n] [|m]; cbn; try lia.
  - intros H. f_equal. apply IH. lia.
  - intros H. apply IH. lia.
  - intros H. apply IH. lia.
Qed.

Lemma no_underscore_left (s : string) :
  has_char "_" (underscores_to_spaces s) = false.
Proof.
  induction s as [|c s IH]; [reflexivity|].
  cbn [underscores_to_spaces has_char]. rewrite IH, orb_false_r.
  destruct (Ascii.eqb c "_") eqn:E; [reflexivity|].
  now rewrite Ascii.eqb_sym.
Qed.

Lemma underscores_keep_length (s : string) :
  String.length (underscores_to_spaces s) = String.length s.
Proof. induction s as [|c s IH]; cbn; congruence. Qed.

Lemma removed_extension_length (s : string) :
  ends_with ".json" s = true ->
  String.length (replace_first ".json" EmptyString s) = String.length s - 5.
Proof.
  induction s as [|c s IH]; intros E; [discriminate|].
  pose proof (ends_with_length _ _ E) as Len.
  cbn [String.length] in Len.
  unfold replace_first; fold replace_first.
  destruct (String.prefix ".json" (String c s)) eqn:P.
  - cbn [append]. apply substring_length. cbn [String.length] in *. lia.
  - cbn [ends_with] in E. apply orb_true_iff in E. destruct E as [E|E].
    + apply String.eqb_eq in E. rewrite <- E in P. discriminate.
    + cbn [String.length]. rewrite (IH E).
      pose proof (ends_with_length _ _ E) as Len'.
      cbn [String.length] in Len'. lia.
Qed.

(** The extension cannot start inside [base] and end inside a
    following [.json]. *)
Lemma no_overlap (base : string) :
  base <> EmptyString ->
  String.prefix ".json" (base ++ ".json") = true ->
  String.prefix ".json" base = true.
Proof.
  intros Hne H.
  destruct base as [|c1 [|c2 [|c3 [|c4 [|c5 b]]]]]; [congruence| | | | |];
    cbn in H |- *;
    repeat match type of H with
      | (if ?d then _ else _) = true => destruct d; [subst|discriminate]
      end;
    try discriminate;
    repeat match goal with
      | |- (if ?d then _ else _) = true => destruct d; [|congruence]
      end;
    first [reflexivity | now destruct b].
Qed.

Lemma removed_extension (base : string) :
  occurs ".json" base = false ->
  replace_first ".json" EmptyString (base ++ ".json") = base.
Proof.
  induction base as [|c base IH]; intros H; [reflexivity|].
  cbn [occurs] in H. apply orb_false_iff in H. destruct H as [P O].
  cbn [append]. unfold replace_first; fold replace_first.
  destruct (String.prefix ".json" (String c (base ++ ".json"))) eqn:Q.
  - assert (C : String.prefix ".json" (String c base) = true).
    { apply no_overlap; [discriminate|exact Q]. }
    congruence.
  - now rewrite (IH O).
Qed.

(** The trail name shown for a file that was accepted: the name
    without one [.json] (five characters less), with no underscore
    left; when [.json] occurs at the end only, it is the text before
    the extension with every underscore replaced by a space. *)
Theorem trail_name_of_accepted_file (name : string) :
  ends_with ".json" name = true ->
  String.length (trail_name name) = String.length name - 5
  /\ has_char "_" (trail_name name) = false
  /\ (forall base : string,
        name = base ++ ".json" ->
        occurs ".json" base = false ->
        trail_name name = underscores_to_spaces base).
Proof.
  intros E. unfold trail_name. split; [|split].
  - rewrite underscores_keep_length. now apply removed_extension_length.
  - apply no_underscore_left.
  - intros base -> O. now rewrite removed_extension.
Qed.

Lemma trail_name_witness :
  ends_with ".json" "Mont_Blanc_Tour.json" = true
  /\ trail_name "Mont_Blanc_Tour.json" = "Mont Blanc Tour".
Proof.
  split; [reflexivity|].
  exact (proj2 (proj2 (@trail_name_of_accepted_file "Mont_Blanc_Tour.json"
                         eq_refl))
           "Mont_Blanc_Tour" eq_refl eq_refl).
Defined.

End FileFacts.

(* ================================================================== *)
(** ** Sessions the page can reach *)

Section Reachable.

Import Js Ingest Session Readable LoadCases Files.
Open Scope string_scope.

Variable Math_sin : float -> float.
Variable Math_cos : float -> float.
Variable Math_atan2 : float -> float -> float.
Variable ToNumber_other : value -> float.

Local Abbreviation callback :=
  (step Math_sin Math_cos Math_atan2 ToNumber_other).
Local Abbreviation after :=
  (run Math_sin Math_cos Math_atan2 ToNumber_other).

(** What holds of every session reached on a host with or without
    geolocation. *)
Definition consistent (geo : bool) (st : State) : Prop :=
  geolocation st = geo
  /\ (watchId st <> None -> trackData st <> [] /\ geo = true)
  /\ (userPosition st <> None -> watchId st <> None)
  /\ (userMarker st = None <-> userPosition st = None)
  /\ (distanceIndicator st <> None ->
      userPosition st <> None /\ trackData st <> [])
  /\ (elevationChart st <> None ->
      trackLayer st <> None /\ trackData st <> []).

Lemma consistent_emit (geo : bool) (e : effect) (st : State) :
  consistent geo st -> consistent geo (emit e st).
Proof. exact (fun H => H). Qed.

Lemma step_files (names : list string) (st : State) :
  exists calls : list effect,
    fst (handleFiles names st)
    = fold_left (fun s e => emit e s) calls st.
Proof.
  destruct names as [|name rest]; cbn [handleFiles]; [now (exists [])|].
  unfold processFile. destruct (negb (ends_with ".json" name)).
  - now (exists []).
  - now (exists [ShowLoading true]).
Qed.

Lemma consistent_emits (geo : bool) (calls : list effect) (st : State) :
  consistent geo st ->
  consistent geo (fold_left (fun s e => emit e s) calls st).
Proof.
  revert st; induction calls as [|e calls IH]; intros st H; [exact H|].
  cbn [fold_left]. apply IH. now apply consistent_emit.
Qed.

Ltac settle :=
  unfold consistent, before_tracking, before_drawing, located,
    updateDistanceIndicator, startGPSTracking, onPositionError, reader_onerror;
  cbn;
  repeat match goal with
    | |- context [geolocation ?s] => destruct (geolocation s) eqn:?; cbn
    | |- context [removeLayer ?l] => destruct l; cbn
    end;
  intuition (try discriminate; try congruence).

Lemma consistent_step (geo : bool) (ev : event) (st : State) :
  consistent geo st -> consistent geo (callback ev st).
Proof.
  intros H. destruct ev as [names|parsed name| |p|e]; cbn [step].
  - destruct (step_files names st) as (calls & ->).
    now apply consistent_emits.
  - unfold reader_onload. destruct parsed as [json|].
    + destruct (load_cases json name st)
        as [e R L|r R L|r c cs R U L|r c cs l ls R U M L];
        rewrite L; cbn [fst snd]; revert H; settle.
    + cbn [fst]. exact H.
  - exact H.
  - destruct (watchId st) as [w|] eqn:W; [|exact H].
    destruct (fix_cases Math_sin Math_cos Math_atan2 ToNumber_other p st)
      as [T F|U F|pts T U N F]; rewrite F; cbn [fst]; revert H; settle.
  - destruct (watchId st) as [w|] eqn:W; exact H.
Qed.

Lemma consistent_run (geo : bool) (events : list event) (st : State) :
  consistent geo st -> consistent geo (after events st).
Proof.
  unfold run. revert st; induction events as [|ev events IH]; intros st H;
    [exact H|].
  cbn [fold_left]. apply IH. now apply consistent_step.
Qed.

Lemma step_keeps_track (ev : event) (st : State) :
  trackData st <> [] -> trackData (callback ev st) <> [].
Proof.
  intros H. destruct ev as [names|parsed name| |p|e]; cbn [step].
  - destruct (step_files names st) as (calls & ->).
    clear - H. revert st H; induction calls as [|e calls IH]; intros st H;
      [exact H|].
    cbn [fold_left]. now apply IH.
  - unfold reader_onload. destruct parsed as [json|]; [|exact H].
    destruct (load_cases json name st)
      as [e R L|r R L|r c cs R U L|r c cs l ls R U M L];
      rewrite L; cbn [fst snd]; try exact H; settle.
  - exact H.
  - destruct (watchId st) as [w|]; [|exact H].
    destruct (fix_keeps_track Math_sin Math_cos Math_atan2 ToNumber_other p st)
      as (T & _). now rewrite T.
  - destruct (watchId st) as [w|]; exact H.
Qed.

(** Every session the page reaches, from its initial state and under
    any sequence of callbacks, is consistent: a position watch exists
    only on a host with geolocation and once a track is stored; a
    position is stored only while a watch exists, and the user marker
    exists exactly when a position is stored; the distance indicator
    is shown only when both a position and a track are stored; an
    elevation chart exists only together with a track layer and a
    stored track.  Once a track is stored, the stored track never
    becomes empty again. *)
Theorem reachable_sessions_are_consistent
  (geo : bool) (events more : list event) :
  consistent geo (after events (initial_state geo))
  /\ (trackData (after events (initial_state geo)) <> [] ->
      trackData (after (events ++ more) (initial_state geo)) <> []).
Proof.
  split.
  - apply consistent_run. unfold consistent. cbn.
    intuition (try discriminate; try congruence).
  - unfold run. rewrite fold_left_app.
    generalize (fold_left (fun s ev => callback ev s) events
                  (initial_state geo)).
    induction more as [|ev more IH]; intros st H; [exact H|].
    cbn [fold_left]. apply IH. now apply step_keeps_track.
Qed.

End Reachable.

(** A session: a file is chosen and read, then two fixes arrive, the
    second one on the far side of the track's only vertex. *)
Example session_with_two_fixes :
  let st :=
    run Engine.sin Engine.cos Engine.atan2 Engine.ToNumber_other
      [FilesChosen ["summit.json"%string];
       FileLoaded (Some (VArr [IngestFacts.point 0 0 1200])) "summit.json";
       PositionFound (mkFix 0 180 5);
       PositionFound (mkFix 0 0 5)]
      (initial_state true) in
  trackData st = [IngestFacts.point 0 0 1200]
  /\ watchId st = Some 1%nat
  /\ userPosition st = Some (mkFix 0 0 5)
  /\ distanceIndicator st = Some (0%float, ON_TRAIL)
  /\ FileFacts.loading_visible false (trace st) = false.
Proof. vm_compute. repeat split. Qed.

(* ================================================================== *)
(** ** A fix on a vertex of the track *)

Section OnVertexFacts.

Import FloatOrder FloatAlgebra FloatSign.
Open Scope float_scope.

Variable Math_sin : float -> float.
Variable Math_cos : float -> float.
Variable Math_atan2 : float -> float -> float.

Local Abbreviation nearest := (getDistanceToTrail Math_sin Math_cos Math_atan2).
Local Abbreviation haversine := (haversineDistance Math_sin Math_cos Math_atan2).

(** With the values ECMA-262 fixes ([sin(+0) = +0],
    [atan2(+0, 1) = +0]), a fix whose coordinates are those of a
    vertex of the track (finite, with a finite squared cosine of the
    latitude) is reported as on the trail, at a distance of at most
    zero, however many other vertices the track has. *)
Theorem fix_on_a_vertex_is_on_trail (v : TrackPoint) (pts : list TrackPoint) :
  Math_sin 0 = 0 ->
  Math_atan2 0 1 = 0 ->
  In v pts ->
  is_finite (lat v) = true ->
  is_finite (lon v) = true ->
  is_finite (Math_cos (lat v * Math_PI / 180)
             * Math_cos (lat v * Math_PI / 180)) = true ->
  haversine (lat v) (lon v) (lat v) (lon v) = 0
  /\ (nearest (lat v) (lon v) pts <=? 0) = true
  /\ band_of (nearest (lat v) (lon v) pts) = ON_TRAIL.
Proof.
  intros S0 A0 Hin Hlat Hlon Hcos.
  assert (Z : haversine (lat v) (lon v) (lat v) (lon v) = 0).
  { unfold haversineDistance. cbv zeta.
    rewrite (@central_a_identical Math_sin Math_cos (lat v) (lon v)
               S0 Hlat Hlon Hcos).
    change (sqrt 0) with 0. change (sqrt (1 - 0)) with 1.
    rewrite A0. reflexivity. }
  split; [exact Z|].
  unfold getDistanceToTrail. rewrite nearest_fold.
  destruct (lower_fold
              (vertex_distances Math_sin Math_cos Math_atan2 (lat v) (lon v) pts)
              infinity eq_refl) as (_ & _ & A & _).
  assert (L : (fold_left lower
                 (vertex_distances Math_sin Math_cos Math_atan2
                    (lat v) (lon v) pts) infinity <=? 0) = true).
  { apply A; [|reflexivity].
    unfold vertex_distances. rewrite <- Z.
    exact (in_map (fun p => haversine (lat v) (lon v) (lat p) (lon p)) pts v Hin). }
  split; [exact L|].
  unfold band_of.
  assert (B : (fold_left lower
                 (vertex_distances Math_sin Math_cos Math_atan2
                    (lat v) (lon v) pts) infinity <? 50) = true).
  { eapply leb_ltb_trans; [exact L|reflexivity]. }
  now rewrite B.
Qed.

End OnVertexFacts.

Lemma fix_on_a_vertex_witness :
  In (mkPoint 0 0 300) [mkPoint 0 180 200; mkPoint 0 0 300]
  /\ band_of (getDistanceToTrail Engine.sin Engine.cos Engine.atan2 0 0
                [mkPoint 0 180 200; mkPoint 0 0 300]) = ON_TRAIL.
Proof.
  assert (Hin : In (mkPoint 0 0 300) [mkPoint 0 180 200; mkPoint 0 0 300])
    by (right; left; reflexivity).
  split; [exact Hin|].
  exact (proj2 (proj2
    (@fix_on_a_vertex_is_on_trail Engine.sin Engine.cos Engine.atan2
       (mkPoint 0 0 300) [mkPoint 0 180 200; mkPoint 0 0 300]
       eq_refl eq_refl Hin eq_refl eq_refl eq_refl))).
Defined.
